(** * Coffee shop management: order and inventory transaction logic

    A shallow embedding of [coffee_shop_app.py].  The Streamlit script keeps
    its whole state in [st.session_state]; every button press re-runs the
    script once with that button reading [True].  The embedding threads the
    session state through a small state-and-exception monad, one computation
    per page handler, and proves the properties of the order / inventory
    logic over it.

    Conventions.
    - Python [float] is the binary64 primitive float of Rocq; Python [int]
      is [Z].
    - Python [str] is [string], read as a sequence of code points below 256.
    - A Python [dict] is an insertion-ordered association list ([Dict.t]).
    - [st.error], [st.success] and [st.warning] calls are returned as
      structured [Message]s.
    - [st.rerun()] aborts the current run of the script, so it is modelled
      as returning from the handler.
    - An [Order] object is held by [current_order] until the run that
      appends it to [orders], and that run resets [current_order]; between
      runs no order is referenced from two places, so orders are values.
      Menu items and ingredient lists are never mutated after creation. *)

From Stdlib Require Import ZArith List String Ascii Bool Floats Lia.
From Stdlib Require Import Permutation Sorted.
Import ListNotations.

Local Open Scope Z_scope.
Local Open Scope string_scope.

(* ================================================================== *)
(** * Python primitives *)

(** Exceptions the modelled code can raise. *)
Inductive exn : Type :=
| KeyError (key : string)
| ZeroDivisionError
| OverflowError.

(** [float(n)] for a Python int: correctly rounded (ties to even); raises
    [OverflowError] (here [None]) when the rounded value is not finite. *)
Definition float_of_Z (n : Z) : option float :=
  let f := SF2Prim (SpecFloat.binary_normalize 53 1024 n 0 false) in
  if PrimFloat.is_infinity f then None else Some f.

(** [x * n] with [x] a float and [n] an int: the int is converted first. *)
Definition float_mul_int (x : float) (n : Z) : exn + float :=
  match float_of_Z n with
  | Some f => inr (PrimFloat.mul x f)
  | None => inl OverflowError
  end.

(** [x / n] with [x] a float and [n] an int. *)
Definition float_div_int (x : float) (n : Z) : exn + float :=
  match float_of_Z n with
  | Some f => if (n =? 0)%Z then inl ZeroDivisionError
              else inr (PrimFloat.div x f)
  | None => inl OverflowError
  end.

(** [str.isspace] on one character (code points below 256). *)
Definition is_space (c : ascii) : bool :=
  let n := nat_of_ascii c in
  ((9 <=? n) && (n <=? 13) || (28 <=? n) && (n <=? 32)
   || (n =? 133) || (n =? 160))%nat.

Fixpoint lstrip (s : string) : string :=
  match s with
  | EmptyString => EmptyString
  | String c s' => if is_space c then lstrip s' else s
  end.

Fixpoint rstrip (s : string) : string :=
  match s with
  | EmptyString => EmptyString
  | String c s' =>
      match rstrip s' with
      | EmptyString => if is_space c then EmptyString else String c EmptyString
      | r => String c r
      end
  end.

(** [s.strip()] *)
Definition strip (s : string) : string := rstrip (lstrip s).

(** [s.split('\n')] *)
Fixpoint split_newline (s : string) : list string :=
  match s with
  | EmptyString => [EmptyString]
  | String c s' =>
      if Ascii.eqb c "010"%char then EmptyString :: split_newline s'
      else match split_newline s' with
           | [] => [String c EmptyString]
           | w :: ws => String c w :: ws
           end
  end.

(** Truth value of a Python string: non-empty. *)
Definition truthy (s : string) : bool :=
  match s with EmptyString => false | _ => true end.

(* ================================================================== *)
(** * Insertion-ordered dictionaries with string keys *)

Module Dict.
Section Dict.
Context {V : Type}.

Definition t := list (string * V).

(** [d.get(k)] / [d[k]] *)
Fixpoint get (k : string) (d : t) : option V :=
  match d with
  | [] => None
  | (k', v) :: d' => if String.eqb k k' then Some v else get k d'
  end.

(** [k in d] *)
Definition mem (k : string) (d : t) : bool :=
  match get k d with Some _ => true | None => false end.

(** [d[k] = v]: an existing key keeps its position, a new key goes last. *)
Fixpoint set (k : string) (v : V) (d : t) : t :=
  match d with
  | [] => [(k, v)]
  | (k', v') :: d' =>
      if String.eqb k k' then (k, v) :: d' else (k', v') :: set k v d'
  end.

(** [list(d.keys())] *)
Definition keys (d : t) : list string := map fst d.

(** [list(d.values())] *)
Definition values (d : t) : list V := map snd d.
End Dict.
Arguments t : clear implicits.
End Dict.

(* ================================================================== *)
(** * Data model *)

Module MenuItem.
Record t : Type := make
  { name : string;
    price : float;
    category : string;
    ingredients : list string }.
End MenuItem.

Module InventoryItem.
Record t : Type := make
  { name : string;
    quantity : Z;
    unit : string;
    min_stock : Z }.

Definition is_low_stock (self : t) : bool := (quantity self <=? min_stock self)%Z.

Definition with_quantity (q : Z) (self : t) : t :=
  make (name self) q (unit self) (min_stock self).
End InventoryItem.

(** One entry of [Order.items] (a Python dict with these five keys). *)
Module Line.
Record t : Type := make
  { name : string;
    price : float;
    quantity : Z;
    category : string;
    subtotal : float }.
End Line.

Inductive Status : Type := pending | completed | cancelled.

Definition Status_eqb (a b : Status) : bool :=
  match a, b with
  | pending, pending | completed, completed | cancelled, cancelled => true
  | _, _ => false
  end.

Module Order.
Record t : Type := make
  { order_id : Z;
    customer_name : string;
    items : list Line.t;
    total : float;
    timestamp : Z;
    status : Status }.

(** [Order(order_id, customer_name)]; [now] is the clock reading. *)
Definition init (order_id : Z) (customer_name : string) (now : Z) : t :=
  make order_id customer_name [] 0%float now pending.

Definition with_status (st : Status) (self : t) : t :=
  make (order_id self) (customer_name self) (items self) (total self)
       (timestamp self) st.

(** [Order.add_item].  The line dict is built before it is appended, so an
    [OverflowError] in the product leaves the order untouched. *)
Definition add_item (menu_item : MenuItem.t) (quantity : Z) (self : t)
  : exn + t :=
  match float_mul_int (MenuItem.price menu_item) quantity with
  | inl e => inl e
  | inr sub =>
      inr (make (order_id self) (customer_name self)
                (items self ++
                   [Line.make (MenuItem.name menu_item)
                              (MenuItem.price menu_item)
                              quantity
                              (MenuItem.category menu_item)
                              sub])
                (PrimFloat.add (total self) sub)
                (timestamp self) (status self))
  end.
End Order.

(* ================================================================== *)
(** * Session state and the handler monad *)

Record Session : Type := mkSession
  { menu : Dict.t MenuItem.t;
    inventory : Dict.t InventoryItem.t;
    orders : list Order.t;
    order_counter : Z;
    daily_sales : float;
    current_order : option Order.t }.

Definition set_menu (m : Dict.t MenuItem.t) (s : Session) : Session :=
  mkSession m (inventory s) (orders s) (order_counter s) (daily_sales s)
            (current_order s).
Definition set_inventory (i : Dict.t InventoryItem.t) (s : Session) : Session :=
  mkSession (menu s) i (orders s) (order_counter s) (daily_sales s)
            (current_order s).
Definition set_orders (o : list Order.t) (s : Session) : Session :=
  mkSession (menu s) (inventory s) o (order_counter s) (daily_sales s)
            (current_order s).
Definition set_order_counter (c : Z) (s : Session) : Session :=
  mkSession (menu s) (inventory s) (orders s) c (daily_sales s)
            (current_order s).
Definition set_daily_sales (d : float) (s : Session) : Session :=
  mkSession (menu s) (inventory s) (orders s) (order_counter s) d
            (current_order s).
Definition set_current_order (o : option Order.t) (s : Session) : Session :=
  mkSession (menu s) (inventory s) (orders s) (order_counter s)
            (daily_sales s) o.

(** How a handler ends: normally, or with an uncaught exception.  Both carry
    the session state as the handler left it. *)
Inductive outcome (A : Type) : Type :=
| Returned (a : A) (s : Session)
| Raised (e : exn) (s : Session).
Arguments Returned {A} a s.
Arguments Raised {A} e s.

Definition state_of {A} (o : outcome A) : Session :=
  match o with Returned _ s => s | Raised _ s => s end.

Definition M (A : Type) : Type := Session -> outcome A.

Definition ret {A} (a : A) : M A := fun s => Returned a s.
Definition bind {A B} (m : M A) (k : A -> M B) : M B :=
  fun s => match m s with
           | Returned a s' => k a s'
           | Raised e s' => Raised e s'
           end.
Definition raise {A} (e : exn) : M A := fun s => Raised e s.
Definition gets {A} (f : Session -> A) : M A := fun s => Returned (f s) s.
Definition modify (f : Session -> Session) : M unit :=
  fun s => Returned tt (f s).
Definition lift {A} (r : exn + A) : M A :=
  match r with inl e => raise e | inr a => ret a end.

Declare Scope py_scope.
Delimit Scope py_scope with py.
Notation "x <- m ;; k" := (bind m (fun x => k))
  (at level 61, m at next level, right associativity) : py_scope.
Notation "m ;; k" := (bind m (fun _ => k))
  (at level 61, right associativity) : py_scope.
Local Open Scope py_scope.

(** [for x in xs: body(x)] *)
Fixpoint for_each {A} (xs : list A) (body : A -> M unit) : M unit :=
  match xs with
  | [] => ret tt
  | x :: xs' => body x ;; for_each xs' body
  end.

(** [d[k]] on the menu, raising [KeyError] on a missing key. *)
Definition menu_getitem (k : string) : M MenuItem.t :=
  m <- gets menu ;;
  match Dict.get k m with
  | Some v => ret v
  | None => raise (KeyError k)
  end.

(* ================================================================== *)
(** * Defaults ([setup_default_menu], [setup_default_inventory]) *)

Definition default_items : list MenuItem.t :=
  [ MenuItem.make "Espresso" 2.50 "Coffee" ["Coffee beans"; "Water"];
    MenuItem.make "Americano" 3.00 "Coffee" ["Coffee beans"; "Water"];
    MenuItem.make "Cappuccino" 4.00 "Coffee" ["Coffee beans"; "Milk"; "Water"];
    MenuItem.make "Latte" 4.50 "Coffee" ["Coffee beans"; "Milk"; "Water"];
    MenuItem.make "Mocha" 5.00 "Coffee"
                  ["Coffee beans"; "Milk"; "Chocolate"; "Water"];
    MenuItem.make "Croissant" 3.50 "Pastry" ["Flour"; "Butter"];
    MenuItem.make "Muffin" 2.75 "Pastry" ["Flour"; "Sugar"; "Eggs"];
    MenuItem.make "Green Tea" 2.00 "Tea" ["Tea leaves"; "Water"] ].

Definition default_inventory : list InventoryItem.t :=
  [ InventoryItem.make "Coffee beans" 100 "kg" 20;
    InventoryItem.make "Milk" 50 "liters" 10;
    InventoryItem.make "Water" 200 "liters" 50;
    InventoryItem.make "Sugar" 25 "kg" 5;
    InventoryItem.make "Chocolate" 15 "kg" 3;
    InventoryItem.make "Flour" 30 "kg" 5;
    InventoryItem.make "Butter" 10 "kg" 2;
    InventoryItem.make "Eggs" 100 "pieces" 20;
    InventoryItem.make "Tea leaves" 5 "kg" 1 ].

Definition setup_default_menu : M unit :=
  for_each default_items (fun item =>
    m <- gets menu ;;
    modify (set_menu (Dict.set (MenuItem.name item) item m))).

Definition setup_default_inventory : M unit :=
  for_each default_inventory (fun item =>
    i <- gets inventory ;;
    modify (set_inventory (Dict.set (InventoryItem.name item) item i))).

(** [init_session_state] on a fresh session, where no key is present yet. *)
Definition init_session_state : Session :=
  state_of
    ((modify (set_menu []) ;; setup_default_menu ;;
      modify (set_inventory []) ;; setup_default_inventory ;;
      modify (set_orders []) ;;
      modify (set_order_counter 1) ;;
      modify (set_daily_sales 0%float) ;;
      modify (set_current_order None))
       (mkSession [] [] [] 0 0%float None)).

(* ================================================================== *)
(** * Page handlers *)

(** What a handler shows through [st.success], [st.error], [st.warning]. *)
Inductive Message : Type :=
| StartedOrder (order_id : Z)
| NotEnough (selected_item ingredient : string)
| AddedToOrder (quantity : Z) (selected_item : string)
| OrderCompleted
| OrderCancelled
| ItemNameRequired
| PriceMustBePositive
| CategoryRequired
| AlreadyExists (name : string)
| MenuItemAdded (name : string) (price : float) (category : string)
| InventoryUpdated (item_name : string) (quantity : Z) (unit : string)
| InventoryAdded (item_name : string) (quantity : Z) (unit : string).

(** The availability loop of [create_order_page]: the ingredient at which
    the loop breaks, if it does.  Ingredients missing from the inventory are
    skipped by the [if ingredient in st.session_state.inventory] guard. *)
Fixpoint first_short (ingredients : list string)
    (inv : Dict.t InventoryItem.t) (quantity : Z) : option string :=
  match ingredients with
  | [] => None
  | ingredient :: rest =>
      match Dict.get ingredient inv with
      | Some it =>
          if (InventoryItem.quantity it <? quantity)%Z then Some ingredient
          else first_short rest inv quantity
      | None => first_short rest inv quantity
      end
  end.

(** [st.session_state.inventory[ingredient].quantity -= amount], under the
    [if ingredient in st.session_state.inventory] guard. *)
Definition deduct (ingredient : string) (amount : Z) : M unit :=
  inv <- gets inventory ;;
  match Dict.get ingredient inv with
  | Some it =>
      modify (set_inventory
                (Dict.set ingredient
                   (InventoryItem.with_quantity
                      (InventoryItem.quantity it - amount) it) inv))
  | None => ret tt
  end.

(** [complete_order(order)] *)
Definition complete_order (order : Order.t) : M unit :=
  for_each (Order.items order) (fun item =>
    menu_item <- menu_getitem (Line.name item) ;;
    for_each (MenuItem.ingredients menu_item) (fun ingredient =>
      deduct ingredient (Line.quantity item))) ;;
  let order := Order.with_status completed order in
  o <- gets orders ;;
  modify (set_orders (o ++ [order])) ;;
  d <- gets daily_sales ;;
  modify (set_daily_sales (PrimFloat.add d (Order.total order))).

(** The four buttons of the order page; at most one reads [True] in a run. *)
Inductive Button : Type :=
| StartNewOrder | AddToOrder | CompleteOrder | CancelOrder.

(** [create_order_page] with the widget values of this run. *)
Definition create_order_page (customer_name : string) (now : Z)
    (selected_item : string) (quantity : Z) (pressed : Button)
  : M (list Message) :=
  cur <- gets current_order ;;
  match cur with
  | None =>
      match pressed with
      | StartNewOrder =>
          c <- gets order_counter ;;
          modify (set_current_order (Some (Order.init c customer_name now))) ;;
          modify (set_order_counter (c + 1)) ;;
          ret [StartedOrder c]
      | _ => ret []
      end
  | Some order =>
      match pressed with
      | AddToOrder =>
          if truthy selected_item then
            menu_item <- menu_getitem selected_item ;;
            inv <- gets inventory ;;
            match first_short (MenuItem.ingredients menu_item) inv quantity with
            | Some ingredient => ret [NotEnough selected_item ingredient]
            | None =>
                order' <- lift (Order.add_item menu_item quantity order) ;;
                modify (set_current_order (Some order')) ;;
                ret [AddedToOrder quantity selected_item]
            end
          else ret []
      | CompleteOrder =>
          match Order.items order with
          | [] => ret []
          | _ :: _ =>
              complete_order order ;;
              modify (set_current_order None) ;;
              ret [OrderCompleted]
          end
      | CancelOrder =>
          match Order.items order with
          | [] => ret []
          | _ :: _ =>
              let order := Order.with_status cancelled order in
              o <- gets orders ;;
              modify (set_orders (o ++ [order])) ;;
              modify (set_current_order None) ;;
              ret [OrderCancelled]
          end
      | StartNewOrder => ret []
      end
  end.

(** The ingredient text area: one ingredient per line, blanks dropped. *)
Definition ingredient_list (ingredients : string) : list string :=
  map strip (filter (fun ing => truthy (strip ing)) (split_newline ingredients)).

(** [add_menu_item_page] when the form is submitted. *)
Definition add_menu_item_page (name : string) (price : float)
    (category ingredients : string) : M (list Message) :=
  if negb (truthy name) then ret [ItemNameRequired]
  else if PrimFloat.leb price 0%float then ret [PriceMustBePositive]
  else if negb (truthy category) then ret [CategoryRequired]
  else
    m <- gets menu ;;
    let warning := if Dict.mem name m then [AlreadyExists name] else [] in
    modify (set_menu
              (Dict.set name
                 (MenuItem.make name price category (ingredient_list ingredients))
                 m)) ;;
    ret (warning ++ [MenuItemAdded name price category])%list.

(** The inventory form of [display_inventory] when it is submitted. *)
Definition display_inventory (item_name : string) (quantity : Z)
    (unit : string) (min_stock : Z) : M (list Message) :=
  if truthy item_name && (0 <? quantity)%Z && truthy unit then
    inv <- gets inventory ;;
    match Dict.get item_name inv with
    | Some it =>
        let q := (InventoryItem.quantity it + quantity)%Z in
        modify (set_inventory
                  (Dict.set item_name (InventoryItem.with_quantity q it) inv)) ;;
        ret [InventoryUpdated item_name q unit]
    | None =>
        modify (set_inventory
                  (Dict.set item_name
                     (InventoryItem.make item_name quantity unit min_stock)
                     inv)) ;;
        ret [InventoryAdded item_name quantity unit]
    end
  else ret [].

(* ------------------------------------------------------------------ *)
(** ** The daily report *)

Definition is_completed (o : Order.t) : bool :=
  Status_eqb (Order.status o) completed.

(** [item_count[name] = item_count.get(name, 0) + item['quantity']] *)
Definition count_item (item_count : Dict.t Z) (item : Line.t) : Dict.t Z :=
  let old := match Dict.get (Line.name item) item_count with
             | Some n => n
             | None => 0%Z
             end in
  Dict.set (Line.name item) (old + Line.quantity item)%Z item_count.

(** The two nested loops that fill [item_count]. *)
Definition item_count (completed_orders : list Order.t) : Dict.t Z :=
  fold_left (fun d order => fold_left count_item (Order.items order) d)
            completed_orders [].

(** The three metrics and the popular-items table, when it is shown. *)
Record Report : Type := mkReport
  { total_orders : Z;
    total_sales : float;
    average_order : float;
    popular_df : option (list (string * Z)) }.

Section DailyReport.
(** [DataFrame.sort_values('Quantity Sold', ascending=False)] on the rows
    of the table.  It belongs to pandas, not to this program, and is
    called with the default [kind], which pandas documents as not
    stable; the report is therefore defined for any sorting function. *)
Variable sort_values : list (string * Z) -> list (string * Z).

(** The popular-items table, shown when there is a completed order and
    [item_count] is not empty. *)
Definition popular_items (completed_orders : list Order.t)
  : option (list (string * Z)) :=
  match completed_orders with
  | _ :: _ =>
      match item_count completed_orders with
      | (_ :: _) as rows => Some (sort_values rows)
      | [] => None
      end
  | [] => None
  end.

(** [daily_report].  The else branch of the average shows the literal
    ["$0.00"], modelled as the float zero. *)
Definition daily_report : M Report :=
  os <- gets orders ;;
  let completed_orders := filter is_completed os in
  let n := Z.of_nat (List.length completed_orders) in
  sales <- gets daily_sales ;;
  avg_order <- match completed_orders with
               | _ :: _ => lift (float_div_int sales n)
               | [] => ret 0%float
               end ;;
  ret (mkReport n sales avg_order (popular_items completed_orders)).
End DailyReport.

(* ------------------------------------------------------------------ *)
(** ** The application as a transition system *)

(** One run of the script that can change the session: a button of the
    order page, or a submitted form. *)
Inductive Action : Type :=
| OrderPage (customer_name : string) (now : Z) (selected_item : string)
            (quantity : Z) (pressed : Button)
| MenuForm (name : string) (price : float) (category ingredients : string)
| InventoryForm (item_name : string) (quantity : Z) (unit : string)
                (min_stock : Z).

Definition handle (a : Action) : M (list Message) :=
  match a with
  | OrderPage customer_name now selected_item quantity pressed =>
      create_order_page customer_name now selected_item quantity pressed
  | MenuForm name price category ingredients =>
      add_menu_item_page name price category ingredients
  | InventoryForm item_name quantity unit min_stock =>
      display_inventory item_name quantity unit min_stock
  end.

(** An uncaught exception ends the run; the session keeps what was done. *)
Definition step (s : Session) (a : Action) : Session := state_of (handle a s).

Definition run (s : Session) (actions : list Action) : Session :=
  fold_left step actions s.

(** What the widgets can deliver: the select box offers the empty string
    and the menu keys; the number inputs have [min_value] 1, 0.0, 0 and
    1. *)
Definition offered (s : Session) (a : Action) : bool :=
  match a with
  | OrderPage _ _ selected_item quantity _ =>
      existsb (String.eqb selected_item) (EmptyString :: Dict.keys (menu s))
      && (1 <=? quantity)%Z
  | MenuForm _ price _ _ => PrimFloat.leb 0%float price
  | InventoryForm _ quantity _ min_stock =>
      (0 <=? quantity)%Z && (1 <=? min_stock)%Z
  end.

Inductive reachable : Session -> Prop :=
| reachable_init : reachable init_session_state
| reachable_step (s : Session) (a : Action) :
    reachable s -> offered s a = true -> reachable (step s a).

(** Stock of an ingredient, when the inventory tracks it. *)
Definition stock (ingredient : string) (inv : Dict.t InventoryItem.t)
  : option Z :=
  option_map InventoryItem.quantity (Dict.get ingredient inv).

(* ------------------------------------------------------------------ *)
(** ** The menu page *)

(** One pass of the grouping loop of [display_menu]: the category gets an
    empty list if it is new, then the item is appended to its list.  The
    lookup follows the assignment, so it finds the key. *)
Definition group_item (categories : Dict.t (list MenuItem.t))
    (item : MenuItem.t) : Dict.t (list MenuItem.t) :=
  let categories :=
    if Dict.mem (MenuItem.category item) categories then categories
    else Dict.set (MenuItem.category item) [] categories in
  match Dict.get (MenuItem.category item) categories with
  | Some items =>
      Dict.set (MenuItem.category item) (items ++ [item])%list categories
  | None => categories
  end.

(** [display_menu]: the categories in the order shown, each with its
    items in the order shown. *)
Definition display_menu : M (Dict.t (list MenuItem.t)) :=
  m <- gets menu ;;
  ret (fold_left group_item (Dict.values m) []).

(* ------------------------------------------------------------------ *)
(** ** The inventory table and the low-stock alert *)

(** A row of the inventory table ([InventoryItem.to_dict]). *)
Module InventoryRow.
Record t : Type := make
  { name : string;
    quantity : Z;
    unit : string;
    min_stock : Z;
    status : string }.
End InventoryRow.

Definition inventory_to_dict (item : InventoryItem.t) : InventoryRow.t :=
  InventoryRow.make (InventoryItem.name item) (InventoryItem.quantity item)
    (InventoryItem.unit item) (InventoryItem.min_stock item)
    (if InventoryItem.is_low_stock item then "Low Stock" else "OK").

(** The rows of the table of [display_inventory]. *)
Definition inventory_data : M (list InventoryRow.t) :=
  inv <- gets inventory ;;
  ret (map inventory_to_dict (Dict.values inv)).

(** The names in the low-stock alert of [display_inventory] and of the
    dashboard; the alert is shown when the list is not empty. *)
Definition low_stock_alert : M (list string) :=
  inv <- gets inventory ;;
  ret (map InventoryItem.name
           (filter InventoryItem.is_low_stock (Dict.values inv))).

(* ------------------------------------------------------------------ *)
(** ** The orders page *)

(** The status strings of the program. *)
Definition status_name (st : Status) : string :=
  match st with
  | pending => "pending"
  | completed => "completed"
  | cancelled => "cancelled"
  end.

(** A row of the orders table ([Order.to_dict]). *)
Module OrderRow.
Record t : Type := make
  { order_id : Z;
    customer_name : string;
    items : Z;
    total : float;
    timestamp : string;
    status : string }.
End OrderRow.

(** What [view_orders] shows. *)
Inductive OrdersView : Type :=
| NoOrdersYet
| OrdersTable (rows : list OrderRow.t)
| NoOrdersFound (status_filter : string).

Section ViewOrders.
(** [timestamp.strftime("%Y-%m-%d %H:%M")], the library's rendering of a
    clock reading. *)
Variable strftime : Z -> string.

Definition order_to_dict (o : Order.t) : OrderRow.t :=
  OrderRow.make (Order.order_id o) (Order.customer_name o)
    (Z.of_nat (List.length (Order.items o))) (Order.total o)
    (strftime (Order.timestamp o)) (status_name (Order.status o)).

(** [status_filter == "All" or order.status == status_filter] *)
Definition passes_filter (status_filter : string) (o : Order.t) : bool :=
  String.eqb status_filter "All"
  || String.eqb (status_name (Order.status o)) status_filter.

(** [view_orders] with the value of the filter select box. *)
Definition view_orders (status_filter : string) : M OrdersView :=
  os <- gets orders ;;
  match os with
  | [] => ret NoOrdersYet
  | _ :: _ =>
      match map order_to_dict (filter (passes_filter status_filter) os) with
      | (_ :: _) as orders_data => ret (OrdersTable orders_data)
      | [] => ret (NoOrdersFound status_filter)
      end
  end.
End ViewOrders.

(* ------------------------------------------------------------------ *)
(** ** The dashboard *)

(** The four metrics of the dashboard page of [main] and its alert. *)
Record Dashboard : Type := mkDashboard
  { menu_items : Z;
    inventory_items : Z;
    todays_orders : Z;
    dashboard_sales : float;
    dashboard_alert : list string }.

Definition dashboard : M Dashboard :=
  m <- gets menu ;;
  inv <- gets inventory ;;
  os <- gets orders ;;
  sales <- gets daily_sales ;;
  low_stock <- low_stock_alert ;;
  ret (mkDashboard (Z.of_nat (List.length m)) (Z.of_nat (List.length inv))
         (Z.of_nat (List.length (filter is_completed os))) sales low_stock).

(* ================================================================== *)
(** * Vocabulary of the properties *)

(** One guarded [quantity -= amount]. *)
Definition deduct_in (ingredient : string) (amount : Z)
    (inv : Dict.t InventoryItem.t) : Dict.t InventoryItem.t :=
  match Dict.get ingredient inv with
  | Some it =>
      Dict.set ingredient
        (InventoryItem.with_quantity (InventoryItem.quantity it - amount) it)
        inv
  | None => inv
  end.

(** The inner loop: every ingredient of one recipe, [amount] each. *)
Definition deduct_recipe (ingredients : list string) (amount : Z)
    (inv : Dict.t InventoryItem.t) : Dict.t InventoryItem.t :=
  fold_left (fun inv ingredient => deduct_in ingredient amount inv)
            ingredients inv.

(** The outer loop, for lines whose item is on the menu [m]. *)
Definition deduct_lines (m : Dict.t MenuItem.t) (lines : list Line.t)
    (inv : Dict.t InventoryItem.t) : Dict.t InventoryItem.t :=
  fold_left (fun inv item =>
               match Dict.get (Line.name item) m with
               | Some menu_item =>
                   deduct_recipe (MenuItem.ingredients menu_item)
                                 (Line.quantity item) inv
               | None => inv
               end)
            lines inv.

(** All lines name items that are on the menu. *)
Definition lines_on_menu (m : Dict.t MenuItem.t) (lines : list Line.t) : Prop :=
  Forall (fun item => Dict.get (Line.name item) m <> None) lines.

(** Left-to-right float sum of the subtotals, from [0.0]. *)
Definition sum_subtotals (items : list Line.t) : float :=
  fold_left (fun acc item => PrimFloat.add acc (Line.subtotal item))
            items 0%float.

(** A line's subtotal is its unit price times its quantity. *)
Definition line_ok (item : Line.t) : Prop :=
  float_mul_int (Line.price item) (Line.quantity item)
  = inr (Line.subtotal item).

Definition order_ok (o : Order.t) : Prop :=
  Order.total o = sum_subtotals (Order.items o)
  /\ Forall line_ok (Order.items o).

(** Left-to-right float sum of order totals, from [0.0]. *)
Definition sales_of (os : list Order.t) : float :=
  fold_left (fun acc o => PrimFloat.add acc (Order.total o)) os 0%float.

(** Every menu entry is stored under its own name. *)
Definition menu_keyed (m : Dict.t MenuItem.t) : Prop :=
  forall k mi, Dict.get k m = Some mi -> MenuItem.name mi = k.

Record Inv (s : Session) : Prop := mkInv
  { inv_menu : menu_keyed (menu s);
    inv_current :
      forall o, current_order s = Some o ->
        Order.status o = pending
        /\ lines_on_menu (menu s) (Order.items o)
        /\ order_ok o;
    inv_history :
      Forall (fun o => Order.status o <> pending /\ order_ok o) (orders s);
    inv_sales : daily_sales s = sales_of (filter is_completed (orders s)) }.

Ltac unfold_monad :=
  unfold menu_getitem, lift in *;
  unfold bind, gets, modify, ret, raise in *; simpl in *.

(** [o - a] on a tracked quantity; an untracked ingredient stays so. *)
Definition minus_opt (o : option Z) (a : Z) : option Z :=
  option_map (fun x => (x - a)%Z) o.

(** How many times a recipe lists an ingredient. *)
Definition uses (ingredient : string) (recipe : list string) : Z :=
  Z.of_nat (count_occ string_dec recipe ingredient).

(** Units of an ingredient that the lines consume under menu [m]. *)
Definition line_use (m : Dict.t MenuItem.t) (ingredient : string)
    (item : Line.t) : Z :=
  match Dict.get (Line.name item) m with
  | Some menu_item =>
      (uses ingredient (MenuItem.ingredients menu_item) * Line.quantity item)%Z
  | None => 0%Z
  end.

Definition lines_use (m : Dict.t MenuItem.t) (ingredient : string)
    (lines : list Line.t) : Z :=
  fold_right (fun item acc => (line_use m ingredient item + acc)%Z) 0%Z lines.

Definition orders_use (m : Dict.t MenuItem.t) (ingredient : string)
    (os : list Order.t) : Z :=
  fold_right (fun o acc => (lines_use m ingredient (Order.items o) + acc)%Z)
             0%Z os.

(** Steps that are button presses on the order page. *)
Definition is_order_page (a : Action) : bool :=
  match a with OrderPage _ _ _ _ _ => true | _ => false end.

(** Every action of the list is one the widgets can deliver when its turn
    comes. *)
Fixpoint all_offered (s : Session) (actions : list Action) : bool :=
  match actions with
  | [] => true
  | a :: rest => offered s a && all_offered (step s a) rest
  end.

Definition is_complete_press (a : Action) : bool :=
  match a with
  | OrderPage _ _ _ _ CompleteOrder => true
  | _ => false
  end.

Definition is_inventory_form (a : Action) : bool :=
  match a with InventoryForm _ _ _ _ => true | _ => false end.

(** Units of an ingredient charged along a sequence of actions: at each
    Complete press, what the lines of the current order use under the menu
    of that moment. *)
Fixpoint consumed_along (s : Session) (actions : list Action)
    (ingredient : string) : Z :=
  match actions with
  | [] => 0%Z
  | a :: rest =>
      ((if is_complete_press a then
          match current_order s with
          | Some o => lines_use (menu s) ingredient (Order.items o)
          | None => 0
          end
        else 0)
       + consumed_along (step s a) rest ingredient)%Z
  end.

(** Two orders on the fresh session: Espresso x3 completed, Latte x2
    cancelled.  Coffee beans end at 100 - 3. *)
Definition two_orders : list Action :=
  [ OrderPage "Walk-in" 0 EmptyString 1 StartNewOrder;
    OrderPage "Walk-in" 0 "Espresso" 3 AddToOrder;
    OrderPage "Walk-in" 0 EmptyString 1 CompleteOrder;
    OrderPage "Ann" 1 EmptyString 1 StartNewOrder;
    OrderPage "Ann" 1 "Latte" 2 AddToOrder;
    OrderPage "Ann" 1 EmptyString 1 CancelOrder ].

(** One order on the fresh session with two lines of 3 Green Tea each. *)
Definition green_tea_twice : list Action :=
  [ OrderPage "Walk-in" 0 EmptyString 1 StartNewOrder;
    OrderPage "Walk-in" 0 "Green Tea" 3 AddToOrder;
    OrderPage "Walk-in" 0 "Green Tea" 3 AddToOrder;
    OrderPage "Walk-in" 0 EmptyString 1 CompleteOrder ].

(** The Espresso scenario: one order of 3 Espresso, completed. *)
Definition espresso_order : list Action :=
  [ OrderPage "Walk-in" 0 EmptyString 1 StartNewOrder;
    OrderPage "Walk-in" 0 "Espresso" 3 AddToOrder;
    OrderPage "Walk-in" 0 EmptyString 1 CompleteOrder ].

(** The ingredient is tracked and its quantity is below the request. *)
Definition short (inv : Dict.t InventoryItem.t) (quantity : Z)
    (ingredient : string) : Prop :=
  exists x, stock ingredient inv = Some x /\ (x < quantity)%Z.

(** The specification's [available]: the ledger quantity, 0 when the
    ingredient is absent from the ledger. *)
Definition available (ingredient : string) (inv : Dict.t InventoryItem.t) : Z :=
  match stock ingredient inv with Some x => x | None => 0%Z end.

(** A run of [add_item] calls on one order, stopping at the first that
    raises. *)
Definition add_items (adds : list (MenuItem.t * Z)) (o : Order.t)
  : exn + Order.t :=
  fold_left (fun r a =>
               match r with
               | inr o => Order.add_item (fst a) (snd a) o
               | inl e => inl e
               end)
            adds (inr o).

(** Rows in descending order of quantity sold. *)
Definition by_quantity_desc (a b : string * Z) : Prop := (snd b <= snd a)%Z.

(** What pandas promises of [sort_values(..., ascending=False)]: the same
    rows, in descending order of the column.  With the default [kind] it
    promises nothing about rows of equal quantity. *)
Definition sorts_descending
    (sort_values : list (string * Z) -> list (string * Z)) : Prop :=
  forall rows,
    Permutation (sort_values rows) rows
    /\ Sorted by_quantity_desc (sort_values rows).

(** Whether row [x] is to stand behind row [y]: behind the rows of larger
    quantity and, unless [strict], behind those of equal quantity too. *)
Definition goes_behind (strict : bool) (x y : string * Z) : bool :=
  if strict then (snd x <? snd y)%Z else (snd x <=? snd y)%Z.

(** Two sorting functions within that promise, by insertion from the
    right: with [strict] rows of equal quantity keep their order, without
    it they come out reversed. *)
Fixpoint insert_desc (strict : bool) (x : string * Z)
    (rows : list (string * Z)) : list (string * Z) :=
  match rows with
  | [] => [x]
  | y :: rest =>
      if goes_behind strict x y then y :: insert_desc strict x rest
      else x :: rows
  end.

Definition insertion_sort_desc (strict : bool) (rows : list (string * Z))
  : list (string * Z) :=
  fold_right (insert_desc strict) [] rows.

(** ** The library's default sort on a short table

    With the default [kind], pandas sorts a column in descending order by
    reversing it, asking numpy for [argsort(kind='quicksort')] of the
    reversed column, and reversing the positions that come back
    ([pandas.core.sorting.nargsort]).  On the x86 builds of numpy whose
    argsort is vectorised, a column that fits one register of four 64-bit
    lanes is sorted by a bitonic network of compare-exchanges between
    lanes; each lane holds a key and the position it came from, and the
    lanes past the end of the column hold the largest key.  A
    compare-exchange leaves the smaller key in the lower lane and the
    larger one in the upper lane, so two lanes are exchanged exactly when
    the lower one holds the strictly larger key: equal keys stay where
    they are. *)

(** A lane: a row of the table, or the padding past its end. *)
Definition lane : Type := option (string * Z).

Definition register : Type := (lane * lane * lane * lane)%type.

(** Whether the key of lane [a] is strictly larger than that of lane [b];
    the padding is the largest key. *)
Definition key_gt (a b : lane) : bool :=
  match a, b with
  | Some x, Some y => (snd y <? snd x)%Z
  | None, Some _ => true
  | _, None => false
  end.

Definition exchange (lo hi : lane) : lane * lane :=
  if key_gt lo hi then (hi, lo) else (lo, hi).

(** The bitonic network on four lanes: neighbours, then the outer and the
    inner pair, then neighbours again. *)
Definition bitonic4 (v : register) : register :=
  let '(a, b, c, d) := v in
  let '(a, b) := exchange a b in
  let '(c, d) := exchange c d in
  let '(a, d) := exchange a d in
  let '(b, c) := exchange b c in
  let '(a, b) := exchange a b in
  let '(c, d) := exchange c d in
  (a, b, c, d).

Definition load (rows : list (string * Z)) : register :=
  (nth_error rows 0, nth_error rows 1, nth_error rows 2, nth_error rows 3).

(** The first [n] lanes go back to memory. *)
Definition store (n : nat) (v : register) : list (string * Z) :=
  let '(a, b, c, d) := v in
  flat_map (fun l : lane => match l with Some row => [row] | None => [] end)
           (firstn n [a; b; c; d]).

(** [argsort] of at most four rows, in ascending order of quantity. *)
Definition argsort4 (rows : list (string * Z)) : list (string * Z) :=
  store (List.length rows) (bitonic4 (load rows)).

(** [sort_values(..., ascending=False)] as those builds compute it on a
    table of at most four rows.  A longer table takes several registers
    and a merge between them, which is not modelled here: it is sorted by
    insertion, within what pandas promises. *)
Definition sort_values_simd (rows : list (string * Z)) : list (string * Z) :=
  if (List.length rows <=? 4)%nat then rev (argsort4 (rev rows))
  else insertion_sort_desc true rows.

(** Proof steps for the network: put the head of a permuted list in its
    place, and decide the comparisons of the exchanges. *)
Ltac place_head :=
  match goal with
  | |- Permutation [] [] => constructor
  | |- Permutation (?a :: ?l) (?a :: ?r) => apply perm_skip
  | |- Permutation (?a :: ?l) (?b :: ?a :: ?r) =>
      apply (Permutation_cons_app [b] r)
  | |- Permutation (?a :: ?l) (?b :: ?c :: ?a :: ?r) =>
      apply (Permutation_cons_app [b; c] r)
  | |- Permutation (?a :: ?l) (?b :: ?c :: ?d :: ?a :: ?r) =>
      apply (Permutation_cons_app [b; c; d] r)
  end; cbn [app].

Ltac split_comparisons :=
  repeat match goal with
         | |- context [(?x <? ?y)%Z] =>
             destruct (Z.ltb_spec x y); cbv beta iota zeta
         end.

(** Quantity sold of one item over a list of lines. *)
Definition quantity_sold (name : string) (lines : list Line.t) : Z :=
  fold_right (fun item acc =>
                if String.eqb (Line.name item) name
                then (Line.quantity item + acc)%Z else acc)
             0%Z lines.

Definition sold (name : string) (lines : list Line.t) : bool :=
  existsb (fun item => String.eqb (Line.name item) name) lines.

(** Names in order of first occurrence. *)
Definition first_seen (names : list string) : list string :=
  fold_left (fun seen n =>
               if existsb (String.eqb n) seen then seen else (seen ++ [n])%list)
            names [].

(** The counts only look at the name and the quantity of a line. *)
Definition name_quantity (item : Line.t) : string * Z :=
  (Line.name item, Line.quantity item).

Definition count_pair (d : Dict.t Z) (p : string * Z) : Dict.t Z :=
  Dict.set (fst p)
           (match Dict.get (fst p) d with Some n => n | None => 0 end + snd p)%Z
           d.

(** One order of 1 Espresso, 1 Americano, 2 Latte and 2 Mocha, completed. *)
Definition four_items_two_ties : list Action :=
  [ OrderPage "Walk-in" 0 EmptyString 1 StartNewOrder;
    OrderPage "Walk-in" 0 "Espresso" 1 AddToOrder;
    OrderPage "Walk-in" 0 "Americano" 1 AddToOrder;
    OrderPage "Walk-in" 0 "Latte" 2 AddToOrder;
    OrderPage "Walk-in" 0 "Mocha" 2 AddToOrder;
    OrderPage "Walk-in" 0 EmptyString 1 CompleteOrder ].

(** Two completed orders of 2 Muffin and 1 Latte each, and a cancelled one
    between them. *)
Definition muffin_latte_twice : list Action :=
  [ OrderPage "Walk-in" 0 EmptyString 1 StartNewOrder;
    OrderPage "Walk-in" 0 "Muffin" 2 AddToOrder;
    OrderPage "Walk-in" 0 "Latte" 1 AddToOrder;
    OrderPage "Walk-in" 0 EmptyString 1 CompleteOrder;
    OrderPage "Ann" 1 EmptyString 1 StartNewOrder;
    OrderPage "Ann" 1 "Mocha" 7 AddToOrder;
    OrderPage "Ann" 1 EmptyString 1 CancelOrder;
    OrderPage "Bob" 2 EmptyString 1 StartNewOrder;
    OrderPage "Bob" 2 "Muffin" 2 AddToOrder;
    OrderPage "Bob" 2 "Latte" 1 AddToOrder;
    OrderPage "Bob" 2 EmptyString 1 CompleteOrder ].

(** An order of 3 Espresso is open on the fresh session when the menu form
    rewrites Espresso (price 9, recipe Milk only); then the order is
    completed. *)
Definition espresso_rewritten : list Action :=
  [ OrderPage "Walk-in" 0 EmptyString 1 StartNewOrder;
    OrderPage "Walk-in" 0 "Espresso" 3 AddToOrder;
    MenuForm "Espresso" 9 "Special" "Milk";
    OrderPage "Walk-in" 0 EmptyString 1 CompleteOrder ].

(** Items of a list that belong to a category. *)
Definition in_category (c : string) (item : MenuItem.t) : bool :=
  String.eqb (MenuItem.category item) c.

(** The characters of a string. *)
Definition chars (s : string) : list ascii := list_ascii_of_string s.

(** A text-area entry as [ingredient_list] stores it: not empty, no
    white space at either end, no line break inside. *)
Definition clean_entry (i : string) : Prop :=
  i <> EmptyString
  /\ lstrip i = i
  /\ rstrip i = i
  /\ ~ In "010"%char (chars i).

(** ["\n".join(entries)] *)
Fixpoint join_newline (entries : list string) : string :=
  match entries with
  | [] => EmptyString
  | [e] => e
  | e :: rest => e ++ String "010" (join_newline rest)
  end.

(** The ids of the orders of a session: the history in order, then the
    current order. *)
Definition open_ids (s : Session) : list Z :=
  (map Order.order_id (orders s)
   ++ match current_order s with
      | Some o => [Order.order_id o]
      | None => []
      end)%list.

(** A line asks for at least one unit of an item that is on the menu. *)
Definition line_sound (m : Dict.t MenuItem.t) (item : Line.t) : Prop :=
  (1 <= Line.quantity item)%Z /\ Dict.get (Line.name item) m <> None.

(** Further facts kept by every step: order ids grow with the counter, and
    the lines of all orders are sound; filed orders have a line. *)
Record Inv2 (s : Session) : Prop := mkInv2
  { inv_ids_sorted : StronglySorted Z.lt (open_ids s);
    inv_ids_bound :
      Forall (fun i => (1 <= i < order_counter s)%Z) (open_ids s);
    inv_counter : (1 <= order_counter s)%Z;
    inv_lines_current :
      forall o, current_order s = Some o ->
        Forall (line_sound (menu s)) (Order.items o);
    inv_lines_history :
      Forall (fun o => Order.items o <> []
                       /\ Forall (line_sound (menu s)) (Order.items o))
             (orders s) }.

(** The ledger [inv'] has the entries of [inv], in the same places and
    with the same name, unit and minimum, none with a larger quantity. *)
Definition shrunk (inv inv' : Dict.t InventoryItem.t) : Prop :=
  Forall2 (fun e e' =>
             fst e' = fst e
             /\ InventoryItem.name (snd e') = InventoryItem.name (snd e)
             /\ InventoryItem.unit (snd e') = InventoryItem.unit (snd e)
             /\ InventoryItem.min_stock (snd e')
                = InventoryItem.min_stock (snd e)
             /\ (InventoryItem.quantity (snd e')
                 <= InventoryItem.quantity (snd e))%Z)
          inv inv'.

(** 9 Croissants completed, then an order of 20 Muffins still open. *)
Definition croissants_then_muffins : list Action :=
  [ OrderPage "Walk-in" 0 EmptyString 1 StartNewOrder;
    OrderPage "Walk-in" 0 "Croissant" 9 AddToOrder;
    OrderPage "Walk-in" 0 EmptyString 1 CompleteOrder;
    OrderPage "Ann" 1 EmptyString 1 StartNewOrder;
    OrderPage "Ann" 1 "Muffin" 20 AddToOrder ].

(** No tracked quantity is negative. *)
Definition stock_nonnegative (inv : Dict.t InventoryItem.t) : Prop :=
  forall j x, stock j inv = Some x -> (0 <= x)%Z.

(** The price passed the check of the menu form: it is not [<= 0]. *)
Definition price_ok (price : float) : Prop :=
  PrimFloat.leb price 0%float = false.

(** The prices on the menu and in all orders passed that check. *)
Record Inv3 (s : Session) : Prop := mkInv3
  { inv_menu_prices :
      forall k mi, Dict.get k (menu s) = Some mi ->
                   price_ok (MenuItem.price mi);
    inv_current_prices :
      forall o, current_order s = Some o ->
        Forall (fun item => price_ok (Line.price item)) (Order.items o);
    inv_history_prices :
      Forall (fun o => Forall (fun item => price_ok (Line.price item))
                              (Order.items o))
             (orders s) }.

(** The names in the alert of a session. *)
Definition state_of_alert (s : Session) : list string :=
  match low_stock_alert s with
  | Returned names _ => names
  | Raised _ _ => []
  end.

(* ================================================================== *)
(** * Facts about dictionaries *)

Section DictFacts.
Context {V : Type}.
Implicit Types (d : Dict.t V) (k : string) (v : V).

Lemma get_set_same k v d : Dict.get k (Dict.set k v d) = Some v.
Proof.
  induction d as [|[k' v'] d IH]; simpl.
  - now rewrite String.eqb_refl.
  - destruct (String.eqb k k') eqn:E; simpl; rewrite ?String.eqb_refl, ?E; auto.
Qed.

Lemma get_set_other k k' v d :
  k <> k' -> Dict.get k' (Dict.set k v d) = Dict.get k' d.
Proof.
  intros Hne. apply String.eqb_neq in Hne.
  induction d as [|[k0 v0] d IH]; simpl.
  - now rewrite String.eqb_sym, Hne.
  - destruct (String.eqb k k0) eqn:E; simpl.
    + apply String.eqb_eq in E; subst k0.
      now rewrite String.eqb_sym, Hne.
    + now rewrite IH.
Qed.

Lemma get_some_in_keys k d :
  Dict.get k d <> None <-> In k (Dict.keys d).
Proof.
  induction d as [|[k' v'] d IH]; simpl.
  - split; [congruence | tauto].
  - destruct (String.eqb k k') eqn:E.
    + apply String.eqb_eq in E. split; [auto | congruence].
    + apply String.eqb_neq in E. rewrite IH. split; [tauto|].
      intros [H|H]; [congruence | exact H].
Qed.

Lemma get_none_not_in_keys k d :
  Dict.get k d = None <-> ~ In k (Dict.keys d).
Proof.
  rewrite <- get_some_in_keys. destruct (Dict.get k d); split; try congruence.
  intros H; exfalso; apply H; discriminate.
Qed.

(** Assigning to an absent key appends the entry. *)
Lemma set_absent k v d :
  Dict.get k d = None -> Dict.set k v d = (d ++ [(k, v)])%list.
Proof.
  induction d as [|[k' v'] d IH]; simpl; [reflexivity|].
  destruct (String.eqb k k'); [discriminate|].
  intros H. now rewrite IH.
Qed.

(** Assigning to a present key rewrites the entry where it stands. *)
Lemma set_present k v d :
  Dict.get k d <> None ->
  exists d1 old d2,
    d = (d1 ++ (k, old) :: d2)%list
    /\ ~ In k (Dict.keys d1)
    /\ Dict.set k v d = (d1 ++ (k, v) :: d2)%list.
Proof.
  induction d as [|[k' v'] d IH]; simpl; [congruence|].
  destruct (String.eqb k k') eqn:E.
  - apply String.eqb_eq in E; subst k'. intros _.
    exists [], v', d. simpl. auto.
  - intros H. destruct (IH H) as (d1 & old & d2 & -> & Hnin & ->).
    exists ((k', v') :: d1), old, d2. simpl. repeat split; auto.
    apply String.eqb_neq in E. intros [F|F]; [congruence | auto].
Qed.

Lemma keys_set_present k v d :
  Dict.get k d <> None -> Dict.keys (Dict.set k v d) = Dict.keys d.
Proof.
  intros H. destruct (set_present k v d H) as (d1 & old & d2 & -> & _ & ->).
  unfold Dict.keys. now rewrite !map_app.
Qed.

Lemma keys_set_incl k k' v d :
  In k' (Dict.keys d) -> In k' (Dict.keys (Dict.set k v d)).
Proof.
  intros H. destruct (Dict.get k d) eqn:E.
  - rewrite keys_set_present; [exact H | congruence].
  - rewrite set_absent by exact E. unfold Dict.keys in *.
    rewrite map_app. apply in_or_app. now left.
Qed.
End DictFacts.

(* ================================================================== *)
(** * The stock deduction of [complete_order] as a pure function *)

Lemma set_inventory_same s : set_inventory (inventory s) s = s.
Proof. now destruct s. Qed.

Lemma deduct_run ingredient amount s :
  deduct ingredient amount s
  = Returned tt (set_inventory (deduct_in ingredient amount (inventory s)) s).
Proof.
  unfold deduct, deduct_in, bind, gets, modify, ret.
  destruct (Dict.get ingredient (inventory s)); [reflexivity|].
  now rewrite set_inventory_same.
Qed.

Lemma for_each_deduct ingredients amount s :
  for_each ingredients (fun ingredient => deduct ingredient amount) s
  = Returned tt
      (set_inventory (deduct_recipe ingredients amount (inventory s)) s).
Proof.
  revert s. induction ingredients as [|i rest IH]; intros s; simpl.
  - unfold ret. now rewrite set_inventory_same.
  - unfold bind. rewrite deduct_run, IH. reflexivity.
Qed.

Lemma for_each_cons {A} (x : A) xs body s :
  for_each (x :: xs) body s
  = match body x s with
    | Returned _ s' => for_each xs body s'
    | Raised e s' => Raised e s'
    end.
Proof. reflexivity. Qed.

(** One pass of the outer loop body of [complete_order]. *)
Lemma deduct_line_run item s :
  (menu_item <- menu_getitem (Line.name item) ;;
   for_each (MenuItem.ingredients menu_item) (fun ingredient =>
     deduct ingredient (Line.quantity item))) s
  = match Dict.get (Line.name item) (menu s) with
    | Some menu_item =>
        Returned tt
          (set_inventory
             (deduct_recipe (MenuItem.ingredients menu_item)
                (Line.quantity item) (inventory s)) s)
    | None => Raised (KeyError (Line.name item)) s
    end.
Proof.
  unfold menu_getitem. unfold bind, gets.
  destruct (Dict.get (Line.name item) (menu s)); [|reflexivity].
  unfold ret. apply for_each_deduct.
Qed.

Lemma deduct_loop_returns lines s :
  lines_on_menu (menu s) lines ->
  for_each lines (fun item =>
    menu_item <- menu_getitem (Line.name item) ;;
    for_each (MenuItem.ingredients menu_item) (fun ingredient =>
      deduct ingredient (Line.quantity item))) s
  = Returned tt
      (set_inventory (deduct_lines (menu s) lines (inventory s)) s).
Proof.
  revert s. induction lines as [|l rest IH]; intros s H.
  - simpl. unfold ret. now rewrite set_inventory_same.
  - inversion H as [|? ? Hl Hrest]; subst.
    rewrite for_each_cons. cbv beta. rewrite deduct_line_run.
    destruct (Dict.get (Line.name l) (menu s)) as [mi|] eqn:E; [|congruence].
    rewrite IH by exact Hrest. simpl. now rewrite E.
Qed.

(** [complete_order] returns, and this is the session it leaves. *)
Lemma complete_order_returns order s :
  lines_on_menu (menu s) (Order.items order) ->
  complete_order order s
  = Returned tt
      (mkSession (menu s)
         (deduct_lines (menu s) (Order.items order) (inventory s))
         (orders s ++ [Order.with_status completed order])
         (order_counter s)
         (PrimFloat.add (daily_sales s) (Order.total order))
         (current_order s)).
Proof.
  intros H. unfold complete_order. unfold bind at 1.
  rewrite (deduct_loop_returns _ _ H). reflexivity.
Qed.

(* ================================================================== *)
(** * Invariants of the running application *)

Lemma menu_keyed_set m mi :
  menu_keyed m -> menu_keyed (Dict.set (MenuItem.name mi) mi m).
Proof.
  intros H k mi'. destruct (string_dec (MenuItem.name mi) k) as [<-|Hne].
  - rewrite get_set_same. now intros [= <-].
  - rewrite get_set_other by exact Hne. apply H.
Qed.

Lemma lines_on_menu_set m k v lines :
  lines_on_menu m lines -> lines_on_menu (Dict.set k v m) lines.
Proof.
  unfold lines_on_menu. apply Forall_impl. intros l H.
  apply get_some_in_keys, keys_set_incl, get_some_in_keys, H.
Qed.

Lemma order_ok_init c n t : order_ok (Order.init c n t).
Proof. split; [reflexivity | constructor]. Qed.

Lemma sum_subtotals_app items item :
  sum_subtotals (items ++ [item])
  = PrimFloat.add (sum_subtotals items) (Line.subtotal item).
Proof. unfold sum_subtotals. now rewrite fold_left_app. Qed.

(** What a successful [add_item] does to the order. *)
Lemma add_item_inr mi q o o' :
  Order.add_item mi q o = inr o' ->
  exists sub,
    float_mul_int (MenuItem.price mi) q = inr sub
    /\ Order.items o'
       = (Order.items o
          ++ [Line.make (MenuItem.name mi) (MenuItem.price mi) q
                        (MenuItem.category mi) sub])%list
    /\ Order.total o' = PrimFloat.add (Order.total o) sub
    /\ Order.status o' = Order.status o
    /\ Order.order_id o' = Order.order_id o
    /\ Order.customer_name o' = Order.customer_name o.
Proof.
  unfold Order.add_item.
  destruct (float_mul_int (MenuItem.price mi) q) as [e|sub]; [discriminate|].
  intros [= <-]. exists sub. simpl. auto 10.
Qed.

Lemma add_item_inl mi q o e :
  Order.add_item mi q o = inl e -> e = OverflowError.
Proof.
  unfold Order.add_item, float_mul_int.
  destruct (float_of_Z q); [discriminate|]. now intros [= <-].
Qed.

Lemma add_item_ok mi q o o' :
  order_ok o -> Order.add_item mi q o = inr o' -> order_ok o'.
Proof.
  intros [Ht Hl] H.
  destruct (add_item_inr _ _ _ _ H) as (sub & Hsub & Hi & Htot & _).
  split.
  - rewrite Htot, Hi, sum_subtotals_app, Ht. reflexivity.
  - rewrite Hi. apply Forall_app. split; [exact Hl|].
    constructor; [exact Hsub | constructor].
Qed.

Lemma sales_of_app os o :
  sales_of (os ++ [o]) = PrimFloat.add (sales_of os) (Order.total o).
Proof. unfold sales_of. now rewrite fold_left_app. Qed.

Lemma offered_selected s c t sel q b :
  offered s (OrderPage c t sel q b) = true ->
  truthy sel = true ->
  Dict.get sel (menu s) <> None.
Proof.
  simpl. intros H Ht. apply andb_prop in H as [H _].
  apply orb_prop in H as [H|H].
  - apply String.eqb_eq in H. subst sel. discriminate.
  - apply existsb_exists in H as (k & Hin & Hk).
    apply String.eqb_eq in Hk. subst k. now apply get_some_in_keys.
Qed.

Lemma menu_keyed_Forall m :
  Forall (fun e => MenuItem.name (snd e) = fst e) m -> menu_keyed m.
Proof.
  induction 1 as [|[k0 v0] m H0 _ IH]; intros k mi; simpl.
  - discriminate.
  - destruct (String.eqb k k0) eqn:E.
    + apply String.eqb_eq in E. intros [= <-]. now subst.
    + apply IH.
Qed.

Lemma Inv_init : Inv init_session_state.
Proof.
  split.
  - apply menu_keyed_Forall. repeat constructor.
  - intros o H; discriminate H.
  - constructor.
  - reflexivity.
Qed.

(** Whatever the lines, the deduction loop of [complete_order] touches the
    inventory only, and the one exception it can raise is [KeyError]. *)
Lemma deduct_loop_cases lines s :
  (exists inv',
      for_each lines (fun item =>
        menu_item <- menu_getitem (Line.name item) ;;
        for_each (MenuItem.ingredients menu_item) (fun ingredient =>
          deduct ingredient (Line.quantity item))) s
      = Returned tt (set_inventory inv' s))
  \/ (exists k inv',
         for_each lines (fun item =>
           menu_item <- menu_getitem (Line.name item) ;;
           for_each (MenuItem.ingredients menu_item) (fun ingredient =>
             deduct ingredient (Line.quantity item))) s
         = Raised (KeyError k) (set_inventory inv' s)).
Proof.
  revert s. induction lines as [|l rest IH]; intros s.
  - left. exists (inventory s). simpl. unfold ret.
    now rewrite set_inventory_same.
  - rewrite for_each_cons. cbv beta. rewrite deduct_line_run.
    destruct (Dict.get (Line.name l) (menu s)) as [mi|] eqn:E.
    + destruct (IH (set_inventory
                      (deduct_recipe (MenuItem.ingredients mi)
                         (Line.quantity l) (inventory s)) s))
        as [(inv' & ->)|(k & inv' & ->)].
      * left. exists inv'. reflexivity.
      * right. exists k, inv'. reflexivity.
    + right. exists (Line.name l), (inventory s).
      now rewrite set_inventory_same.
Qed.

Lemma complete_order_cases order s :
  (exists inv',
      complete_order order s
      = Returned tt
          (mkSession (menu s) inv'
             (orders s ++ [Order.with_status completed order])
             (order_counter s)
             (PrimFloat.add (daily_sales s) (Order.total order))
             (current_order s)))
  \/ (exists k inv',
         complete_order order s = Raised (KeyError k) (set_inventory inv' s)).
Proof.
  destruct (deduct_loop_cases (Order.items order) s)
    as [(inv' & H)|(k & inv' & H)]; [left; exists inv' | right; exists k, inv'];
    unfold complete_order; unfold bind at 1; rewrite H; reflexivity.
Qed.

(** The order page leaves the menu alone. *)
Lemma order_page_menu s c t sel q b :
  menu (step s (OrderPage c t sel q b)) = menu s.
Proof.
  unfold step, handle, create_order_page. unfold bind at 1. unfold gets at 1.
  destruct (current_order s) as [o|]; destruct b; try reflexivity.
  - unfold_monad. destruct (truthy sel); [|reflexivity].
    destruct (Dict.get sel (menu s)); [|reflexivity].
    destruct (first_short _ _ _); [reflexivity|].
    destruct (Order.add_item _ _ _); reflexivity.
  - destruct (Order.items o) eqn:E; [reflexivity|].
    unfold bind at 1.
    destruct (complete_order_cases o s) as [(inv' & ->)|(k & inv' & ->)];
      reflexivity.
  - destruct (Order.items o); reflexivity.
Qed.

(* ------------------------------------------------------------------ *)
(** ** The order page, button by button *)

Lemma start_press s c t sel q :
  current_order s = None ->
  create_order_page c t sel q StartNewOrder s
  = Returned [StartedOrder (order_counter s)]
      (mkSession (menu s) (inventory s) (orders s) (order_counter s + 1)
         (daily_sales s) (Some (Order.init (order_counter s) c t))).
Proof.
  intros H. unfold create_order_page. unfold bind at 1, gets at 1.
  rewrite H. reflexivity.
Qed.

(** With no current order, the three other buttons are not on the page. *)
Lemma no_order_press s c t sel q b :
  current_order s = None -> b <> StartNewOrder ->
  create_order_page c t sel q b s = Returned [] s.
Proof.
  intros H Hb. unfold create_order_page. unfold bind at 1, gets at 1.
  rewrite H. destruct b; [congruence | reflexivity ..].
Qed.

Lemma start_press_ignored s o c t sel q :
  current_order s = Some o ->
  create_order_page c t sel q StartNewOrder s = Returned [] s.
Proof.
  intros H. unfold create_order_page. unfold bind at 1, gets at 1.
  now rewrite H.
Qed.

Lemma add_press s o c t sel q :
  current_order s = Some o ->
  create_order_page c t sel q AddToOrder s
  = if truthy sel then
      match Dict.get sel (menu s) with
      | None => Raised (KeyError sel) s
      | Some menu_item =>
          match first_short (MenuItem.ingredients menu_item) (inventory s) q with
          | Some ingredient => Returned [NotEnough sel ingredient] s
          | None =>
              match Order.add_item menu_item q o with
              | inl e => Raised e s
              | inr o' =>
                  Returned [AddedToOrder q sel]
                           (set_current_order (Some o') s)
              end
          end
      end
    else Returned [] s.
Proof.
  intros H. unfold create_order_page. unfold bind at 1, gets at 1.
  rewrite H. destruct (truthy sel); [|reflexivity].
  unfold_monad. destruct (Dict.get sel (menu s)); [|reflexivity].
  destruct (first_short _ _ _); [reflexivity|].
  destruct (Order.add_item _ _ _); reflexivity.
Qed.

Lemma complete_press s o c t sel q :
  current_order s = Some o ->
  Order.items o <> [] ->
  lines_on_menu (menu s) (Order.items o) ->
  create_order_page c t sel q CompleteOrder s
  = Returned [OrderCompleted]
      (mkSession (menu s)
         (deduct_lines (menu s) (Order.items o) (inventory s))
         (orders s ++ [Order.with_status completed o])
         (order_counter s)
         (PrimFloat.add (daily_sales s) (Order.total o))
         None).
Proof.
  intros H Hne Hm. unfold create_order_page. unfold bind at 1, gets at 1.
  rewrite H. destruct (Order.items o) eqn:E; [congruence|].
  unfold bind at 1. rewrite complete_order_returns by (rewrite E; exact Hm).
  rewrite E. reflexivity.
Qed.

Lemma cancel_press s o c t sel q :
  current_order s = Some o ->
  Order.items o <> [] ->
  create_order_page c t sel q CancelOrder s
  = Returned [OrderCancelled]
      (mkSession (menu s) (inventory s)
         (orders s ++ [Order.with_status cancelled o])
         (order_counter s) (daily_sales s) None).
Proof.
  intros H Hne. unfold create_order_page. unfold bind at 1, gets at 1.
  rewrite H. destruct (Order.items o) eqn:E; [congruence|]. reflexivity.
Qed.

(** Complete and Cancel are only on the page once the order has a line. *)
Lemma finish_press_empty s o c t sel q b :
  current_order s = Some o ->
  Order.items o = [] ->
  b = CompleteOrder \/ b = CancelOrder ->
  create_order_page c t sel q b s = Returned [] s.
Proof.
  intros H E Hb. unfold create_order_page. unfold bind at 1, gets at 1.
  rewrite H. destruct Hb; subst b; rewrite E; reflexivity.
Qed.

Lemma menu_form_accepted s name price category ingredients :
  truthy name = true ->
  PrimFloat.leb price 0%float = false ->
  truthy category = true ->
  add_menu_item_page name price category ingredients s
  = Returned
      ((if Dict.mem name (menu s) then [AlreadyExists name] else [])
         ++ [MenuItemAdded name price category])%list
      (set_menu
         (Dict.set name
            (MenuItem.make name price category (ingredient_list ingredients))
            (menu s)) s).
Proof.
  intros Hn Hp Hc. unfold add_menu_item_page. rewrite Hn, Hp, Hc. reflexivity.
Qed.

Lemma menu_form_cases s name price category ingredients :
  step s (MenuForm name price category ingredients) = s
  \/ step s (MenuForm name price category ingredients)
     = set_menu
         (Dict.set name
            (MenuItem.make name price category (ingredient_list ingredients))
            (menu s)) s.
Proof.
  unfold step, handle, add_menu_item_page.
  destruct (truthy name); [|now left].
  destruct (PrimFloat.leb price 0); [now left|].
  destruct (truthy category); [|now left].
  now right.
Qed.

Lemma inventory_form_cases s item_name quantity unit min_stock :
  exists inv',
    step s (InventoryForm item_name quantity unit min_stock)
    = set_inventory inv' s.
Proof.
  unfold step, handle, display_inventory.
  destruct (truthy item_name && (0 <? quantity)%Z && truthy unit).
  - unfold_monad. destruct (Dict.get item_name (inventory s));
      eexists; reflexivity.
  - exists (inventory s). simpl. now rewrite set_inventory_same.
Qed.

(* ------------------------------------------------------------------ *)
(** ** The invariant is kept by every step *)

Lemma Inv_step s a : Inv s -> offered s a = true -> Inv (step s a).
Proof.
  intros [Hm Hc Hh Hs] Hoff. destruct a as [c t sel q b|n p cat ing|n q u ms].
  - (* order page *)
    unfold step, handle. destruct (current_order s) as [o|] eqn:Ecur.
    + destruct (Hc o eq_refl) as (Hpend & Hlines & Hok). destruct b.
      * rewrite (start_press_ignored _ _ _ _ _ _ Ecur). simpl.
        split; auto. now rewrite Ecur.
      * rewrite (add_press _ _ _ _ _ _ Ecur).
        assert (Hsame : Inv s) by (split; auto; now rewrite Ecur).
        destruct (truthy sel) eqn:Et; [|exact Hsame].
        pose proof (offered_selected _ _ _ _ _ _ Hoff Et) as Hsel.
        destruct (Dict.get sel (menu s)) as [mi|] eqn:Eg; [|congruence].
        destruct (first_short _ _ _); [exact Hsame|].
        destruct (Order.add_item mi q o) as [e|o'] eqn:Ea; [exact Hsame|].
        destruct (add_item_inr _ _ _ _ Ea) as (sub & _ & Hi & _ & Hst & _).
        split; simpl; auto. intros ? [= <-]. repeat split.
        -- congruence.
        -- rewrite Hi. apply Forall_app. split; [exact Hlines|].
           constructor; [|constructor]. simpl.
           rewrite (Hm _ _ Eg). congruence.
        -- apply (add_item_ok _ _ _ _ Hok Ea).
        -- apply (add_item_ok _ _ _ _ Hok Ea).
      * destruct (Order.items o) eqn:Ei.
        -- rewrite (finish_press_empty _ _ _ _ _ _ _ Ecur Ei) by auto.
           simpl. split; auto. now rewrite Ecur.
        -- rewrite (complete_press _ _ _ _ _ _ Ecur)
             by (rewrite ?Ei; congruence).
           split; simpl; auto; try discriminate.
           ++ apply Forall_app. split; [exact Hh|].
              constructor; [|constructor]. split; [discriminate | exact Hok].
           ++ rewrite filter_app. simpl. rewrite sales_of_app. simpl.
              now rewrite Hs.
      * destruct (Order.items o) eqn:Ei.
        -- rewrite (finish_press_empty _ _ _ _ _ _ _ Ecur Ei) by auto.
           simpl. split; auto. now rewrite Ecur.
        -- rewrite (cancel_press _ _ _ _ _ _ Ecur) by (rewrite Ei; congruence).
           split; simpl; auto; try discriminate.
           ++ apply Forall_app. split; [exact Hh|].
              constructor; [|constructor]. split; [discriminate | exact Hok].
           ++ rewrite filter_app. simpl. now rewrite app_nil_r.
    + destruct b.
      * rewrite (start_press _ _ _ _ _ Ecur). split; simpl; auto.
        intros ? [= <-]. repeat split; constructor.
      * rewrite no_order_press by (auto; discriminate).
        simpl. split; auto. now rewrite Ecur.
      * rewrite no_order_press by (auto; discriminate).
        simpl. split; auto. now rewrite Ecur.
      * rewrite no_order_press by (auto; discriminate).
        simpl. split; auto. now rewrite Ecur.
  - (* menu form *)
    destruct (menu_form_cases s n p cat ing) as [->| ->].
    + split; auto.
    + split; simpl; auto.
      * apply (menu_keyed_set (menu s)
                 (MenuItem.make n p cat (ingredient_list ing))), Hm.
      * intros o Ho. destruct (Hc o Ho) as (? & ? & ?).
        split; [|split]; auto. now apply lines_on_menu_set.
  - (* inventory form *)
    destruct (inventory_form_cases s n q u ms) as [inv' ->].
    split; simpl; auto.
Qed.

(** From a session satisfying the invariant, a run of the script on widget
    values either ends normally or stops on the [OverflowError] of a
    quantity too large for a float, the session untouched; in particular the
    menu lookups never raise [KeyError]. *)
Lemma handle_returns s a :
  Inv s -> offered s a = true ->
  (exists msgs s', handle a s = Returned msgs s')
  \/ handle a s = Raised OverflowError s.
Proof.
  intros [Hm Hc Hh Hs] Hoff. destruct a as [c t sel q b|n p cat ing|n q u ms].
  - simpl handle. destruct (current_order s) as [o|] eqn:Ecur.
    + destruct (Hc o eq_refl) as (Hpend & Hlines & Hok). destruct b.
      * rewrite (start_press_ignored _ _ _ _ _ _ Ecur). left. eauto.
      * rewrite (add_press _ _ _ _ _ _ Ecur).
        destruct (truthy sel) eqn:Et; [|left; eauto].
        pose proof (offered_selected _ _ _ _ _ _ Hoff Et) as Hsel.
        destruct (Dict.get sel (menu s)) as [mi|] eqn:Eg; [|congruence].
        destruct (first_short _ _ _); [left; eauto|].
        destruct (Order.add_item mi q o) as [e|o'] eqn:Ea; [|left; eauto].
        right. now rewrite (add_item_inl _ _ _ _ Ea).
      * destruct (Order.items o) eqn:Ei.
        -- rewrite (finish_press_empty _ _ _ _ _ _ _ Ecur Ei) by auto.
           left. eauto.
        -- rewrite (complete_press _ _ _ _ _ _ Ecur)
             by (rewrite ?Ei; congruence).
           left. eauto.
      * destruct (Order.items o) eqn:Ei.
        -- rewrite (finish_press_empty _ _ _ _ _ _ _ Ecur Ei) by auto.
           left. eauto.
        -- rewrite (cancel_press _ _ _ _ _ _ Ecur) by (rewrite Ei; congruence).
           left. eauto.
    + destruct b.
      * rewrite (start_press _ _ _ _ _ Ecur). left. eauto.
      * rewrite no_order_press by (auto; discriminate). left. eauto.
      * rewrite no_order_press by (auto; discriminate). left. eauto.
      * rewrite no_order_press by (auto; discriminate). left. eauto.
  - left. simpl handle. unfold add_menu_item_page.
    destruct (truthy n); simpl; [|unfold ret; eauto].
    destruct (PrimFloat.leb p 0); [unfold ret; eauto|].
    destruct (truthy cat); simpl; unfold_monad; eauto.
  - left. simpl handle. unfold display_inventory.
    destruct (truthy n && (0 <? q)%Z && truthy u); [|unfold ret; eauto].
    unfold_monad. destruct (Dict.get n (inventory s)); eauto.
Qed.

Lemma reachable_Inv s : reachable s -> Inv s.
Proof.
  induction 1 as [|s a _ IH Hoff]; [exact Inv_init | now apply Inv_step].
Qed.

(* ================================================================== *)
(** * Stock arithmetic *)

Lemma minus_opt_0 o : minus_opt o 0 = o.
Proof. destruct o; simpl; [f_equal; lia | reflexivity]. Qed.

Lemma minus_opt_twice o a b :
  minus_opt (minus_opt o a) b = minus_opt o (a + b).
Proof. destruct o; simpl; [f_equal; lia | reflexivity]. Qed.

Lemma orders_use_app m j os1 os2 :
  orders_use m j (os1 ++ os2) = (orders_use m j os1 + orders_use m j os2)%Z.
Proof. induction os1; simpl; lia. Qed.

Lemma stock_deduct_in i j q inv :
  stock j (deduct_in i q inv)
  = if String.eqb i j then minus_opt (stock j inv) q else stock j inv.
Proof.
  unfold deduct_in, stock.
  destruct (String.eqb i j) eqn:E.
  - apply String.eqb_eq in E; subst j.
    destruct (Dict.get i inv) as [it|] eqn:G.
    + now rewrite get_set_same.
    + now rewrite G.
  - apply String.eqb_neq in E.
    destruct (Dict.get i inv) as [it|] eqn:G; [|reflexivity].
    now rewrite get_set_other.
Qed.

Lemma stock_deduct_recipe recipe q j inv :
  stock j (deduct_recipe recipe q inv)
  = minus_opt (stock j inv) (uses j recipe * q).
Proof.
  revert inv. unfold deduct_recipe, uses.
  induction recipe as [|i rest IH]; intros inv; simpl.
  - now rewrite minus_opt_0.
  - rewrite IH, stock_deduct_in.
    destruct (string_dec i j) as [->|Hne].
    + rewrite String.eqb_refl, minus_opt_twice. f_equal. lia.
    + apply String.eqb_neq in Hne. now rewrite Hne.
Qed.

Lemma stock_deduct_lines m lines j inv :
  stock j (deduct_lines m lines inv)
  = minus_opt (stock j inv) (lines_use m j lines).
Proof.
  revert inv. unfold deduct_lines.
  induction lines as [|l rest IH]; intros inv; simpl.
  - now rewrite minus_opt_0.
  - rewrite IH. unfold line_use.
    destruct (Dict.get (Line.name l) m) as [mi|].
    + now rewrite stock_deduct_recipe, minus_opt_twice.
    + reflexivity.
Qed.

(** One press on the order page: the history grows by at most the order
    just closed, and stock drops by what that order uses if it completed. *)
Lemma order_page_step s c t sel q b :
  Inv s -> offered s (OrderPage c t sel q b) = true ->
  exists new,
    orders (step s (OrderPage c t sel q b)) = (orders s ++ new)%list
    /\ forall j,
         stock j (inventory (step s (OrderPage c t sel q b)))
         = minus_opt (stock j (inventory s))
                     (orders_use (menu s) j (filter is_completed new)).
Proof.
  intros [Hm Hc Hh Hs] Hoff.
  assert (Hnil : forall s', orders s' = orders s -> inventory s' = inventory s ->
            exists new, orders s' = (orders s ++ new)%list
              /\ forall j, stock j (inventory s')
                   = minus_opt (stock j (inventory s))
                       (orders_use (menu s) j (filter is_completed new))).
  { intros s' Ho Hi. exists []. rewrite app_nil_r, Hi. split; [exact Ho|].
    intros j. simpl. now rewrite minus_opt_0. }
  unfold step, handle. destruct (current_order s) as [o|] eqn:Ecur.
  - destruct (Hc o eq_refl) as (Hpend & Hlines & Hok). destruct b.
    + rewrite (start_press_ignored _ _ _ _ _ _ Ecur). now apply Hnil.
    + rewrite (add_press _ _ _ _ _ _ Ecur).
      destruct (truthy sel); [|now apply Hnil].
      destruct (Dict.get sel (menu s)); [|now apply Hnil].
      destruct (first_short _ _ _); [now apply Hnil|].
      destruct (Order.add_item _ _ _); now apply Hnil.
    + destruct (Order.items o) eqn:Ei.
      * rewrite (finish_press_empty _ _ _ _ _ _ _ Ecur Ei) by auto.
        now apply Hnil.
      * rewrite (complete_press _ _ _ _ _ _ Ecur)
          by (rewrite ?Ei; congruence).
        exists [Order.with_status completed o]. split; [reflexivity|].
        intros j. simpl. rewrite stock_deduct_lines. f_equal. lia.
    + destruct (Order.items o) eqn:Ei.
      * rewrite (finish_press_empty _ _ _ _ _ _ _ Ecur Ei) by auto.
        now apply Hnil.
      * rewrite (cancel_press _ _ _ _ _ _ Ecur) by (rewrite Ei; congruence).
        exists [Order.with_status cancelled o]. split; [reflexivity|].
        intros j. simpl. now rewrite minus_opt_0.
  - destruct b.
    + rewrite (start_press _ _ _ _ _ Ecur). now apply Hnil.
    + rewrite no_order_press by (auto; discriminate). now apply Hnil.
    + rewrite no_order_press by (auto; discriminate). now apply Hnil.
    + rewrite no_order_press by (auto; discriminate). now apply Hnil.
Qed.

Lemma order_page_run actions : forall s,
  Inv s ->
  all_offered s actions = true ->
  forallb is_order_page actions = true ->
  menu (run s actions) = menu s
  /\ exists new,
       orders (run s actions) = (orders s ++ new)%list
       /\ forall j,
            stock j (inventory (run s actions))
            = minus_opt (stock j (inventory s))
                        (orders_use (menu s) j (filter is_completed new)).
Proof.
  induction actions as [|a rest IH]; intros s HI Hoff Hop; simpl in *.
  - split; [reflexivity|]. exists []. rewrite app_nil_r. split; [reflexivity|].
    intros j. simpl. now rewrite minus_opt_0.
  - apply andb_prop in Hoff as [Ha Hrest].
    apply andb_prop in Hop as [Hpa Hprest].
    destruct a as [c t sel q b| |]; try discriminate.
    destruct (IH _ (Inv_step _ _ HI Ha) Hrest Hprest)
      as (Hmenu & new2 & Ho2 & Hst2).
    destruct (order_page_step _ _ _ _ _ _ HI Ha) as (new1 & Ho1 & Hst1).
    rewrite order_page_menu in *.
    split; [exact Hmenu|]. exists (new1 ++ new2)%list. split.
    + rewrite Ho2, Ho1. now rewrite app_assoc.
    + intros j. rewrite Hst2, Hst1, minus_opt_twice, filter_app, orders_use_app.
      reflexivity.
Qed.

(** Any press on the order page other than Complete leaves the stock
    ledger and the sales accumulator as they were. *)
Lemma order_page_frame s c t sel q b :
  b <> CompleteOrder ->
  inventory (step s (OrderPage c t sel q b)) = inventory s
  /\ daily_sales (step s (OrderPage c t sel q b)) = daily_sales s.
Proof.
  intros Hb. unfold step, handle.
  destruct (current_order s) as [o|] eqn:Ecur.
  - destruct b; [| | congruence |].
    + rewrite (start_press_ignored _ _ _ _ _ _ Ecur). now split.
    + rewrite (add_press _ _ _ _ _ _ Ecur).
      destruct (truthy sel); [|now split].
      destruct (Dict.get sel (menu s)); [|now split].
      destruct (first_short _ _ _); [now split|].
      destruct (Order.add_item _ _ _); now split.
    + destruct (Order.items o) eqn:Ei.
      * rewrite (finish_press_empty _ _ _ _ _ _ _ Ecur Ei) by auto. now split.
      * rewrite (cancel_press _ _ _ _ _ _ Ecur) by (rewrite Ei; congruence).
        now split.
  - destruct b; [| | congruence |].
    + rewrite (start_press _ _ _ _ _ Ecur). now split.
    + rewrite no_order_press by (auto; discriminate). now split.
    + rewrite no_order_press by (auto; discriminate). now split.
Qed.

(** The inventory form never lowers a quantity. *)
Lemma inventory_form_grows s n q u ms j x :
  stock j (inventory s) = Some x ->
  exists y, stock j (inventory (step s (InventoryForm n q u ms))) = Some y
            /\ (x <= y)%Z.
Proof.
  intros Hj. unfold step, handle, display_inventory.
  destruct (truthy n && (0 <? q)%Z && truthy u) eqn:G.
  - apply andb_prop in G as [G _]. apply andb_prop in G as [_ G].
    apply Z.ltb_lt in G. unfold_monad.
    destruct (string_dec n j) as [->|Hne].
    + unfold stock in *. destruct (Dict.get j (inventory s)) as [it|] eqn:E;
        [|discriminate]. simpl in *. rewrite get_set_same. simpl.
      injection Hj as <-. eexists; split; [reflexivity | lia].
    + destruct (Dict.get n (inventory s)); simpl; unfold stock;
        rewrite get_set_other by exact Hne; exists x; split; auto; lia.
  - exists x. split; [exact Hj | lia].
Qed.

(** Only the Complete button can lower a stock quantity. *)
Lemma only_complete_lowers s a j x :
  is_complete_press a = false ->
  stock j (inventory s) = Some x ->
  exists y, stock j (inventory (step s a)) = Some y /\ (x <= y)%Z.
Proof.
  intros Ha Hj. destruct a as [c t sel q b|n p cat ing|n q u ms].
  - assert (Hb : b <> CompleteOrder) by (intros ->; discriminate).
    destruct (order_page_frame s c t sel q b Hb) as [-> _].
    exists x. split; [exact Hj | lia].
  - destruct (menu_form_cases s n p cat ing) as [-> | ->];
      exists x; (split; [exact Hj | lia]).
  - now apply inventory_form_grows.
Qed.

(** One step that is not the inventory form: the ledger drops by what
    [consumed_along] counts for that step. *)
Lemma ledger_step s a j :
  Inv s -> offered s a = true -> is_inventory_form a = false ->
  stock j (inventory (step s a))
  = minus_opt (stock j (inventory s)) (consumed_along s [a] j).
Proof.
  intros HI Hoff Hform. simpl consumed_along. rewrite Z.add_0_r.
  destruct a as [c t sel q b|n p cat ing|n q u ms]; [| |discriminate].
  - destruct (is_complete_press (OrderPage c t sel q b)) eqn:Hb.
    + destruct b; try discriminate. clear Hb. unfold step, handle.
      destruct HI as [Hm Hc Hh Hs].
      destruct (current_order s) as [o|] eqn:Ecur.
      * destruct (Hc o eq_refl) as (_ & Hlines & _).
        destruct (Order.items o) eqn:Ei.
        -- rewrite (finish_press_empty _ _ _ _ _ _ _ Ecur Ei) by auto.
           simpl. now rewrite minus_opt_0.
        -- rewrite (complete_press _ _ _ _ _ _ Ecur)
             by (rewrite ?Ei; congruence).
           cbn [state_of inventory]. now rewrite stock_deduct_lines, Ei.
      * rewrite no_order_press by (auto; discriminate).
        simpl. now rewrite minus_opt_0.
    + assert (Hne : b <> CompleteOrder) by (intros ->; discriminate).
      destruct (order_page_frame s c t sel q b Hne) as [-> _].
      now rewrite minus_opt_0.
  - simpl. rewrite minus_opt_0.
    destruct (menu_form_cases s n p cat ing) as [-> | ->]; reflexivity.
Qed.

Lemma ledger_run actions : forall s j,
  Inv s ->
  all_offered s actions = true ->
  forallb (fun a => negb (is_inventory_form a)) actions = true ->
  stock j (inventory (run s actions))
  = minus_opt (stock j (inventory s)) (consumed_along s actions j).
Proof.
  induction actions as [|a rest IH]; intros s j HI Hoff Hform.
  - simpl. now rewrite minus_opt_0.
  - simpl in Hoff, Hform.
    apply andb_prop in Hoff as [Ha Hrest].
    apply andb_prop in Hform as [Hfa Hfrest].
    apply negb_true_iff in Hfa.
    change (run s (a :: rest)) with (run (step s a) rest).
    rewrite (IH _ j (Inv_step _ _ HI Ha) Hrest Hfrest).
    rewrite (ledger_step s a j HI Ha Hfa), minus_opt_twice.
    f_equal. simpl. lia.
Qed.

(* ================================================================== *)
(** * Stock is charged at completion only *)

(** C5.  Adding a line never changes the stock ledger; cancelling changes
    neither the ledger nor the sales accumulator; no action other than the
    Complete button lowers a quantity; over any sequence of order-page
    presses, each tracked quantity ends at its starting value minus what
    the recipes of the orders completed in that sequence consume; and when
    the menu form is used in between as well, the same holds with each
    order charged by the recipes on the menu when it is completed. *)
Theorem stock_charged_at_completion_only :
  (forall s c t sel q,
      inventory (step s (OrderPage c t sel q AddToOrder)) = inventory s)
  /\ (forall s c t sel q,
         inventory (step s (OrderPage c t sel q CancelOrder)) = inventory s
         /\ daily_sales (step s (OrderPage c t sel q CancelOrder))
            = daily_sales s)
  /\ (forall s a j x,
         is_complete_press a = false ->
         stock j (inventory s) = Some x ->
         exists y, stock j (inventory (step s a)) = Some y /\ (x <= y)%Z)
  /\ (forall s actions,
         reachable s ->
         all_offered s actions = true ->
         forallb is_order_page actions = true ->
         exists new,
           orders (run s actions) = (orders s ++ new)%list
           /\ forall j,
                stock j (inventory (run s actions))
                = minus_opt (stock j (inventory s))
                    (orders_use (menu s) j (filter is_completed new)))
  /\ (forall s actions j,
         reachable s ->
         all_offered s actions = true ->
         forallb (fun a => negb (is_inventory_form a)) actions = true ->
         stock j (inventory (run s actions))
         = minus_opt (stock j (inventory s)) (consumed_along s actions j)).
Proof.
  split; [|split; [|split; [|split]]].
  - intros. apply order_page_frame. discriminate.
  - intros. apply order_page_frame. discriminate.
  - intros s a j x. apply only_complete_lowers.
  - intros s actions Hr Hoff Hop.
    apply (order_page_run actions s (reachable_Inv s Hr) Hoff Hop).
  - intros s actions j Hr Hoff Hform.
    apply (ledger_run actions s j (reachable_Inv s Hr) Hoff Hform).
Qed.

Lemma stock_charged_at_completion_only_witness :
  exists new,
    orders (run init_session_state two_orders)
    = (orders init_session_state ++ new)%list
    /\ forall j,
         stock j (inventory (run init_session_state two_orders))
         = minus_opt (stock j (inventory init_session_state))
             (orders_use (menu init_session_state) j
                (filter is_completed new)).
Proof.
  exact (proj1 (proj2 (proj2 (proj2 stock_charged_at_completion_only)))
           init_session_state two_orders reachable_init eq_refl eq_refl).
Defined.

(* ================================================================== *)
(** * Overselling within one order *)

(** C1 (the code departs from it).  With 5 Tea leaves in stock, a single
    order takes two lines of 3 Green Tea: each line passes the availability
    check, because the check compares the line's quantity with the ledger
    and the ledger is not charged before completion; completing the order
    then leaves Tea leaves at -1. *)
Theorem two_accepted_lines_oversell :
  let s0 := init_session_state in
  let s1 := run s0 (firstn 1 green_tea_twice) in
  let s2 := run s0 (firstn 2 green_tea_twice) in
  let s3 := run s0 (firstn 3 green_tea_twice) in
  let s4 := run s0 green_tea_twice in
  all_offered s0 green_tea_twice = true
  /\ current_order s0 = None /\ orders s0 = []
  /\ stock "Tea leaves" (inventory s0) = Some 5%Z
  /\ handle (OrderPage "Walk-in" 0 "Green Tea" 3 AddToOrder) s1
     = Returned [AddedToOrder 3 "Green Tea"] s2
  /\ handle (OrderPage "Walk-in" 0 "Green Tea" 3 AddToOrder) s2
     = Returned [AddedToOrder 3 "Green Tea"] s3
  /\ handle (OrderPage "Walk-in" 0 EmptyString 1 CompleteOrder) s3
     = Returned [OrderCompleted] s4
  /\ map Order.status (orders s4) = [completed]
  /\ stock "Tea leaves" (inventory s4) = Some (-1)%Z.
Proof. vm_compute. repeat split; reflexivity. Qed.

(* ================================================================== *)
(** * Finalized orders *)

(** C2 as stated fails: neither [complete_order] nor [Order.add_item] looks
    at the status.  Applied to the completed order of the Espresso scenario,
    [complete_order] returns normally, charges the stock a second time,
    files the order a second time and adds its total to the sales again;
    [add_item] returns normally with one more line and a larger total. *)
Lemma completed_order_is_not_guarded :
  let s := run init_session_state espresso_order in
  exists o espresso,
    orders s = [o]
    /\ Order.status o = completed
    /\ Dict.get "Espresso" (menu s) = Some espresso
    /\ stock "Coffee beans" (inventory s) = Some 97%Z
    /\ daily_sales s = 7.5%float
    /\ (exists s',
           complete_order o s = Returned tt s'
           /\ stock "Coffee beans" (inventory s') = Some 94%Z
           /\ orders s' = [o; o]
           /\ daily_sales s' = 15%float)
    /\ (exists o',
           Order.add_item espresso 1 o = inr o'
           /\ List.length (Order.items o) = 1%nat
           /\ List.length (Order.items o') = 2%nat
           /\ Order.total o = 7.5%float
           /\ Order.total o' = 10%float
           /\ Order.status o' = completed).
Proof.
  vm_compute. eexists. eexists.
  repeat split; try reflexivity; eexists; repeat split; reflexivity.
Qed.

Lemma step_orders_append s a :
  Inv s -> offered s a = true ->
  exists new, orders (step s a) = (orders s ++ new)%list.
Proof.
  intros HI Hoff. destruct a as [c t sel q b|n p cat ing|n q u ms].
  - destruct (order_page_step _ _ _ _ _ _ HI Hoff) as (new & H & _).
    now exists new.
  - exists []. rewrite app_nil_r.
    destruct (menu_form_cases s n p cat ing) as [-> | ->]; reflexivity.
  - exists []. rewrite app_nil_r.
    destruct (inventory_form_cases s n q u ms) as [inv' ->]. reflexivity.
Qed.

(** C2, amended.  The code has no status check; what keeps a finalized
    order from being touched is the page flow.  In every reachable session
    the current order, the only one the Add, Complete and Cancel buttons act
    on, is pending; every order in the history is completed or cancelled;
    with no current order those three buttons change nothing; and a step
    only appends to the history, leaving the orders already filed as they
    are. *)
Theorem finalized_orders_out_of_reach s :
  reachable s ->
  (forall o, current_order s = Some o -> Order.status o = pending)
  /\ (forall o, In o (orders s) ->
        Order.status o = completed \/ Order.status o = cancelled)
  /\ (current_order s = None ->
      forall c t sel q b, b <> StartNewOrder ->
        handle (OrderPage c t sel q b) s = Returned [] s)
  /\ (forall a, offered s a = true ->
        exists new, orders (step s a) = (orders s ++ new)%list).
Proof.
  intros Hr. pose proof (reachable_Inv s Hr) as HI.
  destruct HI as [Hm Hc Hh Hs]. split; [|split; [|split]].
  - intros o Ho. now destruct (Hc o Ho).
  - intros o Ho. rewrite Forall_forall in Hh. destruct (Hh o Ho) as [Hp _].
    destruct (Order.status o); [congruence | now left | now right].
  - intros Hnone c t sel q b Hb. simpl. now apply no_order_press.
  - intros a Ha. apply step_orders_append; [now split | exact Ha].
Qed.

Lemma reachable_run s actions :
  reachable s -> all_offered s actions = true -> reachable (run s actions).
Proof.
  revert s. induction actions as [|a rest IH]; intros s Hr Hoff; simpl in *.
  - exact Hr.
  - apply andb_prop in Hoff as [Ha Hrest].
    apply IH; [now apply reachable_step | exact Hrest].
Qed.

Lemma finalized_orders_out_of_reach_witness :
  let s := run init_session_state espresso_order in
  (forall o, current_order s = Some o -> Order.status o = pending)
  /\ (forall o, In o (orders s) ->
        Order.status o = completed \/ Order.status o = cancelled)
  /\ (current_order s = None ->
      forall c t sel q b, b <> StartNewOrder ->
        handle (OrderPage c t sel q b) s = Returned [] s)
  /\ (forall a, offered s a = true ->
        exists new, orders (step s a) = (orders s ++ new)%list).
Proof.
  exact (finalized_orders_out_of_reach
           (run init_session_state espresso_order)
           (reachable_run _ espresso_order reachable_init eq_refl)).
Defined.

(* ================================================================== *)
(** * Rejection of a line for lack of stock *)

Lemma first_short_spec ingredients inv q :
  match first_short ingredients inv q with
  | Some i =>
      exists before after,
        ingredients = (before ++ i :: after)%list
        /\ short inv q i
        /\ forall j, In j before -> ~ short inv q j
  | None => forall j, In j ingredients -> ~ short inv q j
  end.
Proof.
  induction ingredients as [|i rest IH]; simpl.
  - intros j [].
  - assert (Hstock : stock i inv
                     = option_map InventoryItem.quantity (Dict.get i inv))
      by reflexivity.
    destruct (Dict.get i inv) as [it|] eqn:G; simpl in Hstock.
    + destruct (InventoryItem.quantity it <? q)%Z eqn:L.
      * apply Z.ltb_lt in L. exists [], rest. simpl.
        split; [reflexivity|]. split; [|intros j []].
        exists (InventoryItem.quantity it). auto.
      * apply Z.ltb_ge in L.
        assert (Hi : ~ short inv q i).
        { intros (x & Hx & Hlt). rewrite Hstock in Hx.
          injection Hx as <-. lia. }
        destruct (first_short rest inv q) as [k|].
        -- destruct IH as (before & after & -> & Hk & Hb).
           exists (i :: before), after. simpl. split; [reflexivity|].
           split; [exact Hk|]. intros j [<-|Hj]; auto.
        -- intros j [<-|Hj]; auto.
    + assert (Hi : ~ short inv q i).
      { intros (x & Hx & _). rewrite Hstock in Hx. discriminate. }
      destruct (first_short rest inv q) as [k|].
      * destruct IH as (before & after & -> & Hk & Hb).
        exists (i :: before), after. simpl. split; [reflexivity|].
        split; [exact Hk|]. intros j [<-|Hj]; auto.
      * intros j [<-|Hj]; auto.
Qed.

(** C3 as stated fails: an ingredient that the ledger does not track has
    available stock 0 in the specification's sense, yet the availability
    loop skips it.  "Chai", made of the untracked "Spices", is added to the
    menu; a line of 1 Chai is accepted and changes the order. *)
Lemma untracked_ingredient_is_not_short :
  let s := run init_session_state
               [ MenuForm "Chai" 3 "Tea" "Spices";
                 OrderPage "Walk-in" 0 EmptyString 1 StartNewOrder ] in
  exists order chai s',
    current_order s = Some order
    /\ Order.status order = pending
    /\ Order.items order = []
    /\ Dict.get "Chai" (menu s) = Some chai
    /\ In "Spices" (MenuItem.ingredients chai)
    /\ (available "Spices" (inventory s) < 1)%Z
    /\ create_order_page "Walk-in" 0 "Chai" 1 AddToOrder s
       = Returned [AddedToOrder 1 "Chai"] s'
    /\ option_map (fun o => List.length (Order.items o)) (current_order s')
       = Some 1%nat.
Proof.
  vm_compute. do 3 eexists.
  repeat split; try reflexivity. now left.
Qed.

(** C3, amended.  If some ingredient of the recipe is tracked by the ledger
    with a quantity below the requested one, the Add press is answered with
    the "not enough" error naming the first such ingredient in recipe order,
    and the whole session (so the order and the ledger) is left as it was.
    Ingredients the ledger does not track are skipped. *)
Theorem short_ingredient_rejects_line s order c t sel q menu_item :
  current_order s = Some order ->
  truthy sel = true ->
  Dict.get sel (menu s) = Some menu_item ->
  (exists i, In i (MenuItem.ingredients menu_item) /\ short (inventory s) q i) ->
  exists before i after,
    MenuItem.ingredients menu_item = (before ++ i :: after)%list
    /\ short (inventory s) q i
    /\ (forall j, In j before -> ~ short (inventory s) q j)
    /\ create_order_page c t sel q AddToOrder s
       = Returned [NotEnough sel i] s.
Proof.
  intros Hcur Hsel Hget (i0 & Hin & Hshort).
  rewrite (add_press _ _ _ _ _ _ Hcur), Hsel, Hget.
  pose proof (first_short_spec (MenuItem.ingredients menu_item)
                (inventory s) q) as H.
  destruct (first_short _ _ _) as [i|].
  - destruct H as (before & after & Hdec & Hi & Hb).
    exists before, i, after. auto.
  - exfalso. apply (H i0 Hin Hshort).
Qed.

(** 60 Mocha on the fresh session: Coffee beans (100) suffice, Milk (50)
    is the first ingredient that does not. *)
Lemma short_ingredient_rejects_line_witness :
  let s := run init_session_state (firstn 1 espresso_order) in
  exists before i after,
    ["Coffee beans"; "Milk"; "Chocolate"; "Water"] = (before ++ i :: after)%list
    /\ short (inventory s) 60 i
    /\ (forall j, In j before -> ~ short (inventory s) 60 j)
    /\ create_order_page "Walk-in" 0 "Mocha" 60 AddToOrder s
       = Returned [NotEnough "Mocha" i] s.
Proof.
  apply (short_ingredient_rejects_line
           (run init_session_state (firstn 1 espresso_order))
           (Order.init 1 "Walk-in" 0) "Walk-in" 0 "Mocha" 60
           (MenuItem.make "Mocha" 5 "Coffee"
              ["Coffee beans"; "Milk"; "Chocolate"; "Water"])).
  - reflexivity.
  - reflexivity.
  - reflexivity.
  - exists "Milk". split; [simpl; auto|].
    exists 50%Z. split; [reflexivity | lia].
Defined.

Example mocha_names_milk :
  create_order_page "Walk-in" 0 "Mocha" 60 AddToOrder
    (run init_session_state (firstn 1 espresso_order))
  = Returned [NotEnough "Mocha" "Milk"]
      (run init_session_state (firstn 1 espresso_order)).
Proof. reflexivity. Qed.

(** Where the availability check does suffice: an order of a single line
    whose recipe lists no ingredient twice.  If the line passes the check
    and no tracked quantity is negative, none is negative after the
    deduction. *)
Lemma single_line_never_oversells m inv menu_item item :
  Dict.get (Line.name item) m = Some menu_item ->
  NoDup (MenuItem.ingredients menu_item) ->
  (0 <= Line.quantity item)%Z ->
  first_short (MenuItem.ingredients menu_item) inv (Line.quantity item) = None ->
  (forall j x, stock j inv = Some x -> (0 <= x)%Z) ->
  forall j y, stock j (deduct_lines m [item] inv) = Some y -> (0 <= y)%Z.
Proof.
  intros Hget Hnd Hq Hcheck Hpos j y.
  rewrite stock_deduct_lines. simpl. unfold line_use. rewrite Hget.
  destruct (stock j inv) as [x|] eqn:Hj; [|discriminate].
  simpl. intros [= <-]. pose proof (Hpos j x Hj) as Hx.
  pose proof (first_short_spec (MenuItem.ingredients menu_item) inv
                (Line.quantity item)) as Hns.
  rewrite Hcheck in Hns. unfold uses.
  pose proof (proj1 (NoDup_count_occ string_dec _) Hnd j) as Hle.
  destruct (count_occ string_dec (MenuItem.ingredients menu_item) j)
    as [|[|n]] eqn:Ec; [simpl; lia | | lia].
  assert (Hin : In j (MenuItem.ingredients menu_item)).
  { apply (count_occ_In string_dec). lia. }
  assert (Hge : ~ (x < Line.quantity item)%Z).
  { intros Hlt. apply (Hns j Hin). exists x. auto. }
  change (Z.of_nat 1) with 1%Z. lia.
Qed.

(* ================================================================== *)
(** * The order total *)

Lemma add_items_inl adds e :
  fold_left (fun r a =>
               match r with
               | inr o => Order.add_item (fst a) (snd a) o
               | inl e => inl e
               end) adds (inl e) = inl e.
Proof. induction adds; simpl; auto. Qed.

Lemma add_items_ok adds : forall o o',
  order_ok o -> add_items adds o = inr o' ->
  order_ok o'
  /\ map Line.price (Order.items o')
     = (map Line.price (Order.items o)
        ++ map (fun a => MenuItem.price (fst a)) adds)%list
  /\ map Line.quantity (Order.items o')
     = (map Line.quantity (Order.items o) ++ map snd adds)%list.
Proof.
  unfold add_items.
  induction adds as [|[mi q] rest IH]; intros o o' Hok H; simpl in *.
  - injection H as <-. rewrite !app_nil_r. auto.
  - destruct (Order.add_item mi q o) as [e|o1] eqn:E.
    + now rewrite add_items_inl in H.
    + destruct (IH o1 o' (add_item_ok _ _ _ _ Hok E) H) as (Hok' & Hp & Hq).
      destruct (add_item_inr _ _ _ _ E) as (sub & _ & Hi & _).
      rewrite Hi, !map_app in Hp, Hq. simpl in Hp, Hq.
      rewrite <- !app_assoc in Hp, Hq. auto.
Qed.

(** C4.  Whatever lines are successfully added to a fresh order, its total
    is the (left-to-right, floating-point) sum of the subtotals of its lines
    and each subtotal is the line's unit price, as the menu item had it when
    the line was added, times its quantity.  In every reachable session this
    holds of the current order and of every order in the history. *)
Theorem total_is_sum_of_subtotals :
  (forall order_id customer_name now adds o,
      add_items adds (Order.init order_id customer_name now) = inr o ->
      Order.total o = sum_subtotals (Order.items o)
      /\ Forall line_ok (Order.items o)
      /\ map Line.price (Order.items o)
         = map (fun a => MenuItem.price (fst a)) adds
      /\ map Line.quantity (Order.items o) = map snd adds)
  /\ (forall s, reachable s ->
        (forall o, current_order s = Some o -> order_ok o)
        /\ (forall o, In o (orders s) -> order_ok o)).
Proof.
  split.
  - intros id cust now adds o H.
    destruct (add_items_ok adds _ _ (order_ok_init id cust now) H)
      as ([Ht Hl] & Hp & Hq). auto.
  - intros s Hr. destruct (reachable_Inv s Hr) as [_ Hc Hh _]. split.
    + intros o Ho. apply (Hc o Ho).
    + intros o Ho. rewrite Forall_forall in Hh. apply (Hh o Ho).
Qed.

Lemma total_is_sum_of_subtotals_witness :
  (let o := Order.make 1 "Walk-in"
              [ Line.make "Espresso" 2.5 3 "Coffee" 7.5;
                Line.make "Muffin" 2.75 2 "Pastry" 5.5 ]
              13 0 pending in
   Order.total o = sum_subtotals (Order.items o)
   /\ Forall line_ok (Order.items o)
   /\ map Line.price (Order.items o) = [2.5%float; 2.75%float]
   /\ map Line.quantity (Order.items o) = [3%Z; 2%Z])
  /\ (forall o, In o (orders (run init_session_state two_orders)) ->
        order_ok o).
Proof.
  split.
  - exact (proj1 total_is_sum_of_subtotals 1%Z "Walk-in" 0%Z
             [ (MenuItem.make "Espresso" 2.5 "Coffee" ["Coffee beans"; "Water"],
                3%Z);
               (MenuItem.make "Muffin" 2.75 "Pastry" ["Flour"; "Sugar"; "Eggs"],
                2%Z) ]
             _ eq_refl).
  - exact (proj2 (proj2 total_is_sum_of_subtotals
                    (run init_session_state two_orders)
                    (reachable_run _ two_orders reachable_init eq_refl))).
Defined.

(* ================================================================== *)
(** * The daily report *)

Lemma completed_count_nonzero (o : Order.t) os :
  (Z.of_nat (List.length (o :: os)) =? 0)%Z = false.
Proof. apply Z.eqb_neq. simpl List.length. lia. Qed.

(** In a reachable session the accumulator is the sum of the totals of the
    completed orders. *)
Lemma daily_sales_is_sum s :
  reachable s -> daily_sales s = sales_of (filter is_completed (orders s)).
Proof. intros Hr. now destruct (reachable_Inv s Hr). Qed.

(** C7.  With no completed order in the history of a reachable session the
    report shows 0 orders, 0 sales and a 0 average; in no session at all
    does the report raise [ZeroDivisionError]; and with [n >= 1] completed
    orders the average is the sales accumulator divided by [n]. *)
Theorem daily_report_average sort_values :
  (forall s, reachable s -> filter is_completed (orders s) = [] ->
     daily_report sort_values s
     = Returned (mkReport 0 0%float 0%float None) s)
  /\ (forall s s', daily_report sort_values s <> Raised ZeroDivisionError s')
  /\ (forall s, filter is_completed (orders s) <> [] ->
        let completed_orders := filter is_completed (orders s) in
        let n := Z.of_nat (List.length completed_orders) in
        match float_of_Z n with
        | Some f =>
            daily_report sort_values s
            = Returned
                (mkReport n (daily_sales s) (PrimFloat.div (daily_sales s) f)
                          (popular_items sort_values completed_orders)) s
        | None => daily_report sort_values s = Raised OverflowError s
        end).
Proof.
  split; [|split].
  - intros s Hr Hnil. pose proof (daily_sales_is_sum s Hr) as Hs.
    rewrite Hnil in Hs. unfold daily_report. unfold_monad.
    rewrite Hnil, Hs. reflexivity.
  - intros s s'. unfold daily_report. unfold_monad.
    destruct (filter is_completed (orders s)) as [|o os] eqn:E;
      [discriminate|].
    unfold float_div_int. rewrite completed_count_nonzero.
    destruct (float_of_Z _); discriminate.
  - intros s Hne. cbv zeta. unfold daily_report. unfold_monad.
    destruct (filter is_completed (orders s)) as [|o os] eqn:E;
      [congruence|].
    unfold float_div_int. rewrite completed_count_nonzero.
    destruct (float_of_Z _); reflexivity.
Qed.

Lemma daily_report_average_witness :
  daily_report (fun rows => rows) init_session_state
  = Returned (mkReport 0 0%float 0%float None) init_session_state
  /\ (let s := run init_session_state two_orders in
      match float_of_Z 1 with
      | Some f =>
          daily_report (fun rows => rows) s
          = Returned
              (mkReport 1 (daily_sales s) (PrimFloat.div (daily_sales s) f)
                 (popular_items (fun rows => rows)
                    (filter is_completed (orders s)))) s
      | None => daily_report (fun rows => rows) s = Raised OverflowError s
      end).
Proof.
  split.
  - exact (proj1 (daily_report_average (fun rows => rows))
             init_session_state reachable_init eq_refl).
  - refine (proj2 (proj2 (daily_report_average (fun rows => rows)))
              (run init_session_state two_orders) _).
    vm_compute. discriminate.
Defined.

Example two_orders_report :
  daily_report (fun rows => rows) (run init_session_state two_orders)
  = Returned (mkReport 1 7.5%float 7.5%float (Some [("Espresso", 3%Z)]))
             (run init_session_state two_orders).
Proof. vm_compute. reflexivity. Qed.

(* ================================================================== *)
(** * Popular items *)

Lemma insert_desc_perm strict x rows :
  Permutation (insert_desc strict x rows) (x :: rows).
Proof.
  induction rows as [|y rest IH]; simpl; [reflexivity|].
  destruct (goes_behind strict x y); [|reflexivity].
  rewrite IH. apply perm_swap.
Qed.

Lemma insert_desc_sorted strict x rows :
  Sorted by_quantity_desc rows ->
  Sorted by_quantity_desc (insert_desc strict x rows).
Proof.
  induction 1 as [|y rest Hs IH Hhd]; simpl.
  - repeat constructor.
  - destruct (goes_behind strict x y) eqn:E; unfold goes_behind in E.
    + constructor; [exact IH|].
      assert (Hyx : by_quantity_desc y x).
      { unfold by_quantity_desc. destruct strict.
        - apply Z.ltb_lt in E. lia.
        - apply Z.leb_le in E. exact E. }
      destruct rest as [|z rest']; simpl.
      * now constructor.
      * destruct (goes_behind strict x z); constructor; auto.
        now inversion Hhd.
    + constructor; [now constructor|]. constructor.
      unfold by_quantity_desc. destruct strict.
      * apply Z.ltb_ge in E. exact E.
      * apply Z.leb_gt in E. lia.
Qed.

Lemma insertion_sort_desc_ok strict :
  sorts_descending (insertion_sort_desc strict).
Proof.
  intros rows. unfold insertion_sort_desc.
  induction rows as [|x rest [IHp IHs]]; simpl.
  - split; constructor.
  - split.
    + rewrite insert_desc_perm. now constructor.
    + now apply insert_desc_sorted.
Qed.

Lemma by_quantity_desc_trans :
  Relations_1.Transitive by_quantity_desc.
Proof. intros a b c. unfold by_quantity_desc. lia. Qed.

(** The nested loops visit the lines of the completed orders in order. *)
Lemma item_count_flat completed_orders :
  item_count completed_orders
  = fold_left count_item (flat_map Order.items completed_orders) [].
Proof.
  unfold item_count. generalize (@nil (string * Z)).
  induction completed_orders as [|o os IH]; intros d; simpl.
  - reflexivity.
  - now rewrite IH, fold_left_app.
Qed.

Lemma get_count_item name d item :
  Dict.get name (count_item d item)
  = if String.eqb (Line.name item) name
    then Some (match Dict.get name d with Some n => n | None => 0 end
               + Line.quantity item)%Z
    else Dict.get name d.
Proof.
  unfold count_item. destruct (String.eqb (Line.name item) name) eqn:E.
  - apply String.eqb_eq in E. subst name. now rewrite get_set_same.
  - apply String.eqb_neq in E. now rewrite get_set_other.
Qed.

Lemma get_counted name lines : forall d,
  Dict.get name (fold_left count_item lines d)
  = match Dict.get name d with
    | Some n => Some (n + quantity_sold name lines)%Z
    | None => if sold name lines then Some (quantity_sold name lines)
              else None
    end.
Proof.
  unfold sold. induction lines as [|l rest IH]; intros d; simpl.
  - destruct (Dict.get name d); [f_equal; lia | reflexivity].
  - rewrite IH, get_count_item.
    destruct (String.eqb (Line.name l) name); simpl.
    + destruct (Dict.get name d); f_equal; lia.
    + reflexivity.
Qed.

Lemma keys_count_item d item :
  Dict.keys (count_item d item)
  = if existsb (String.eqb (Line.name item)) (Dict.keys d) then Dict.keys d
    else (Dict.keys d ++ [Line.name item])%list.
Proof.
  unfold count_item.
  destruct (existsb (String.eqb (Line.name item)) (Dict.keys d)) eqn:E.
  - apply keys_set_present, get_some_in_keys.
    apply existsb_exists in E as (k & Hin & Hk).
    apply String.eqb_eq in Hk. now subst k.
  - rewrite set_absent.
    + unfold Dict.keys. now rewrite map_app.
    + apply get_none_not_in_keys. intros Hin.
      assert (existsb (String.eqb (Line.name item)) (Dict.keys d) = true);
        [|congruence].
      apply existsb_exists. exists (Line.name item).
      split; [exact Hin | apply String.eqb_refl].
Qed.

Lemma keys_counted lines : forall d,
  Dict.keys (fold_left count_item lines d)
  = fold_left (fun seen n =>
                 if existsb (String.eqb n) seen then seen
                 else (seen ++ [n])%list)
              (map Line.name lines) (Dict.keys d).
Proof.
  induction lines as [|l rest IH]; intros d; simpl; [reflexivity|].
  now rewrite IH, keys_count_item.
Qed.

Lemma count_item_pairs lines : forall d,
  fold_left count_item lines d
  = fold_left count_pair (map name_quantity lines) d.
Proof. induction lines as [|l rest IH]; intros d; simpl; auto. Qed.

Lemma item_count_nil_iff completed_orders :
  item_count completed_orders = []
  <-> flat_map Order.items completed_orders = [].
Proof.
  rewrite item_count_flat. split.
  - destruct (flat_map Order.items completed_orders) as [|l rest]; auto.
    intros H. pose proof (get_counted (Line.name l) (l :: rest) []) as G.
    rewrite H in G. simpl in G. rewrite String.eqb_refl in G. discriminate.
  - now intros ->.
Qed.

Lemma sorted_pair_fixed sort_values (a b : string * Z) :
  sorts_descending sort_values ->
  (snd b < snd a)%Z ->
  sort_values [a; b] = [a; b].
Proof.
  intros Hsort Hlt. destruct (Hsort [a; b]) as [Hp Hs].
  apply Permutation_sym, Permutation_length_2_inv in Hp as [E|E]; [exact E|].
  rewrite E in Hs. inversion Hs as [|? ? _ Hhd]; subst.
  inversion Hhd as [|? ? Hab]; subst. unfold by_quantity_desc in Hab. lia.
Qed.

(** The network sorts: on a short table too the library returns the same
    rows in descending order of quantity. *)
Lemma sort_values_simd_ok : sorts_descending sort_values_simd.
Proof.
  intros rows.
  destruct rows as [|[na qa] [|[nb qb] [|[nc qc] [|[nd qd] [|e rest]]]]].
  1-5: cbv -[Z.ltb Z.le]; split_comparisons;
       (split; [repeat place_head | repeat constructor; lia]).
  change (sort_values_simd ((na, qa) :: (nb, qb) :: (nc, qc) :: (nd, qd)
                            :: e :: rest))
    with (insertion_sort_desc true
            ((na, qa) :: (nb, qb) :: (nc, qc) :: (nd, qd) :: e :: rest)).
  apply insertion_sort_desc_ok.
Qed.

(** Up to three rows the network keeps rows of equal quantity in the
    order of the table; the first table on which it does not has four. *)
Lemma sort_values_simd_stable_upto_3 rows :
  (List.length rows <= 3)%nat ->
  sort_values_simd rows = insertion_sort_desc true rows.
Proof.
  destruct rows as [|[na qa] [|[nb qb] [|[nc qc] [|e rest]]]]; intros Hlen;
    [| | | |simpl in Hlen; lia].
  all: cbv -[Z.ltb Z.le]; split_comparisons; try reflexivity; try lia.
Qed.

(** C8 as stated fails on ties.  The program asks pandas for a descending
    sort with the default kind, which is not stable.  One completed order
    of 1 Espresso, 1 Americano, 2 Latte and 2 Mocha, entered through the
    order page on the fresh session, gives a table of four rows with the
    names in that order; the library's sort shows Mocha = 2 before
    Latte = 2 and Americano = 1 before Espresso = 1, each tie against the
    order in which the names were first met, where a sort that keeps ties
    in that order would show Latte, Mocha, Espresso, Americano. *)
Lemma popular_items_ties_reversed :
  let s := run init_session_state four_items_two_ties in
  let completed_orders := filter is_completed (orders s) in
  sorts_descending sort_values_simd
  /\ all_offered init_session_state four_items_two_ties = true
  /\ map Order.status (orders s) = [completed]
  /\ first_seen (map Line.name (flat_map Order.items completed_orders))
     = ["Espresso"; "Americano"; "Latte"; "Mocha"]
  /\ item_count completed_orders
     = [("Espresso", 1%Z); ("Americano", 1%Z); ("Latte", 2%Z); ("Mocha", 2%Z)]
  /\ popular_items sort_values_simd completed_orders
     = Some [("Mocha", 2%Z); ("Latte", 2%Z);
             ("Americano", 1%Z); ("Espresso", 1%Z)]
  /\ insertion_sort_desc true (item_count completed_orders)
     = [("Latte", 2%Z); ("Mocha", 2%Z);
        ("Espresso", 1%Z); ("Americano", 1%Z)].
Proof.
  split; [apply sort_values_simd_ok|].
  vm_compute. repeat split; reflexivity.
Qed.

(** C8, amended.  For any history, with [sort_values] any function that
    returns its rows in descending order of quantity: the table maps each
    item name occurring in a completed order to the sum of the quantities
    of its lines in completed orders (other orders are left out), its rows
    are built in order of first occurrence, and what is shown is those rows
    sorted by descending quantity; how rows of equal quantity are ordered is
    left to [sort_values].  After two completed orders of 2 Muffin and
    1 Latte each, Muffin = 4 comes before Latte = 2. *)
Theorem popular_items_counts_sorted sort_values (history : list Order.t) :
  sorts_descending sort_values ->
  let completed_orders := filter is_completed history in
  let lines := flat_map Order.items completed_orders in
  let counts := item_count completed_orders in
  (forall name,
      Dict.get name counts
      = if sold name lines then Some (quantity_sold name lines) else None)
  /\ Dict.keys counts = first_seen (map Line.name lines)
  /\ match popular_items sort_values completed_orders with
     | Some df =>
         lines <> []
         /\ Permutation df counts
         /\ StronglySorted by_quantity_desc df
     | None => lines = []
     end
  /\ (forall o1 o2,
         completed_orders = [o1; o2] ->
         map name_quantity (Order.items o1) = [("Muffin", 2%Z); ("Latte", 1%Z)] ->
         map name_quantity (Order.items o2) = [("Muffin", 2%Z); ("Latte", 1%Z)] ->
         popular_items sort_values completed_orders
         = Some [("Muffin", 4%Z); ("Latte", 2%Z)]).
Proof.
  intros Hsort completed_orders lines counts.
  split; [|split; [|split]].
  - intros name. unfold counts. rewrite item_count_flat.
    now rewrite get_counted.
  - unfold counts, first_seen. rewrite item_count_flat.
    now rewrite keys_counted.
  - unfold popular_items, lines, counts.
    destruct completed_orders as [|o os] eqn:E; [reflexivity|].
    destruct (item_count (o :: os)) as [|r rows] eqn:Ec.
    + now apply item_count_nil_iff.
    + destruct (Hsort (r :: rows)) as [Hp Hs]. split; [|split].
      * intros Hnil. apply item_count_nil_iff in Hnil. congruence.
      * exact Hp.
      * apply Sorted_StronglySorted; [exact by_quantity_desc_trans | exact Hs].
  - intros o1 o2 E H1 H2. rewrite E. unfold popular_items.
    rewrite item_count_flat. simpl flat_map. rewrite app_nil_r.
    rewrite count_item_pairs, map_app, H1, H2.
    change (fold_left count_pair
              ([("Muffin", 2%Z); ("Latte", 1%Z)]
               ++ [("Muffin", 2%Z); ("Latte", 1%Z)]) [])
      with [("Muffin", 4%Z); ("Latte", 2%Z)].
    cbv iota. f_equal. apply sorted_pair_fixed; [exact Hsort | simpl; lia].
Qed.

Lemma popular_items_counts_sorted_witness :
  popular_items (insertion_sort_desc true)
    (filter is_completed (orders (run init_session_state muffin_latte_twice)))
  = Some [("Muffin", 4%Z); ("Latte", 2%Z)].
Proof.
  set (history := orders (run init_session_state muffin_latte_twice)).
  destruct (popular_items_counts_sorted (insertion_sort_desc true) history
              (insertion_sort_desc_ok true)) as (_ & _ & _ & H).
  eapply H; subst history; vm_compute; reflexivity.
Defined.

(* ================================================================== *)
(** * The menu form *)

Lemma truthy_true_iff s : truthy s = true <-> s <> EmptyString.
Proof. destruct s; simpl; split; congruence. Qed.

Lemma truthy_false_iff s : truthy s = false <-> s = EmptyString.
Proof. destruct s; simpl; split; congruence. Qed.

(** C9.  The menu form answers an empty name, a price [<= 0] or an empty
    category with a validation error and leaves the session, so the menu,
    as it was.  Otherwise the entry is stored under its name: a new name is
    appended after the existing entries, an existing name has its entry
    replaced where it stands; the other entries are untouched. *)
Theorem menu_form_upsert s name price category ingredients :
  let item :=
    MenuItem.make name price category (ingredient_list ingredients) in
  let result := add_menu_item_page name price category ingredients s in
  (name = EmptyString \/ PrimFloat.leb price 0%float = true
   \/ category = EmptyString ->
   exists e,
     (e = ItemNameRequired \/ e = PriceMustBePositive \/ e = CategoryRequired)
     /\ result = Returned [e] s)
  /\ (name <> EmptyString ->
      PrimFloat.leb price 0%float = false ->
      category <> EmptyString ->
      exists msgs,
        result = Returned msgs (set_menu (Dict.set name item (menu s)) s)
        /\ Dict.get name (menu (state_of result)) = Some item
        /\ (forall k, k <> name ->
              Dict.get k (menu (state_of result)) = Dict.get k (menu s))
        /\ (Dict.get name (menu s) = None ->
            menu (state_of result) = (menu s ++ [(name, item)])%list)
        /\ (Dict.get name (menu s) <> None ->
            exists before old after,
              menu s = (before ++ (name, old) :: after)%list
              /\ ~ In name (Dict.keys before)
              /\ menu (state_of result)
                 = (before ++ (name, item) :: after)%list)).
Proof.
  cbv zeta. split.
  - intros H. unfold add_menu_item_page.
    destruct (truthy name) eqn:En; simpl.
    2:{ exists ItemNameRequired. auto. }
    destruct (PrimFloat.leb price 0) eqn:Ep.
    { exists PriceMustBePositive. auto. }
    destruct (truthy category) eqn:Ec; simpl.
    2:{ exists CategoryRequired. auto. }
    apply truthy_true_iff in En, Ec. destruct H as [H|[H|H]]; congruence.
  - intros Hn Hp Hc. apply truthy_true_iff in Hn, Hc.
    rewrite (menu_form_accepted s name price category ingredients Hn Hp Hc).
    eexists. split; [reflexivity|]. simpl. split; [|split; [|split]].
    + apply get_set_same.
    + intros k Hk. apply get_set_other. congruence.
    + apply set_absent.
    + apply set_present.
Qed.

Lemma menu_form_upsert_witness :
  (exists e,
      (e = ItemNameRequired \/ e = PriceMustBePositive \/ e = CategoryRequired)
      /\ add_menu_item_page "Scone" 0 "Pastry" "Flour" init_session_state
         = Returned [e] init_session_state)
  /\ (exists before old after,
         menu init_session_state = (before ++ ("Latte", old) :: after)%list
         /\ ~ In "Latte" (Dict.keys before)
         /\ menu (state_of (add_menu_item_page "Latte" 4.75 "Coffee" "Milk"
                              init_session_state))
            = (before
               ++ ("Latte", MenuItem.make "Latte" 4.75 "Coffee" ["Milk"])
               :: after)%list).
Proof.
  split.
  - apply (proj1 (menu_form_upsert init_session_state "Scone" 0 "Pastry"
                    "Flour")).
    right. left. reflexivity.
  - destruct (proj2 (menu_form_upsert init_session_state "Latte" 4.75 "Coffee"
                       "Milk"))
      as (msgs & _ & _ & _ & _ & H).
    + discriminate.
    + reflexivity.
    + discriminate.
    + apply H. vm_compute. discriminate.
Defined.

Example latte_keeps_its_place :
  Dict.keys (menu (step init_session_state
                     (MenuForm "Latte" 4.75 "Coffee" "Milk")))
  = Dict.keys (menu init_session_state)
  /\ Dict.keys (menu (step init_session_state
                        (MenuForm "Scone" 3.25 "Pastry" "Flour")))
     = (Dict.keys (menu init_session_state) ++ ["Scone"])%list.
Proof. vm_compute. split; reflexivity. Qed.

Example ingredient_list_strips :
  ingredient_list
    (String " " ("Flour  " ++ String "010" (String "010"
       ("  " ++ String "010"
          ("Brown sugar" ++ String "009" EmptyString)))))
  = ["Flour"; "Brown sugar"].
Proof. reflexivity. Qed.

(* ================================================================== *)
(** * Which recipe is charged *)

(** C10.  [complete_order] reads the recipe from the menu as it is when the
    order is completed.  If the menu form rewrites an item while an order
    holding lines of that item is open, completing the order charges the
    rewritten recipe for those lines (and the unchanged recipes for the
    others), while the order goes to the history with the lines it had: the
    price, category and subtotal captured when each line was added. *)
Theorem recipe_read_at_completion
    s order name price category ingredients c t sel q :
  current_order s = Some order ->
  Order.items order <> [] ->
  lines_on_menu (menu s) (Order.items order) ->
  truthy name = true ->
  PrimFloat.leb price 0%float = false ->
  truthy category = true ->
  let edited :=
    MenuItem.make name price category (ingredient_list ingredients) in
  let s1 := step s (MenuForm name price category ingredients) in
  let s2 := step s1 (OrderPage c t sel q CompleteOrder) in
  menu s1 = Dict.set name edited (menu s)
  /\ current_order s1 = Some order
  /\ inventory s1 = inventory s
  /\ handle (OrderPage c t sel q CompleteOrder) s1
     = Returned [OrderCompleted] s2
  /\ inventory s2 = deduct_lines (menu s1) (Order.items order) (inventory s)
  /\ (forall j,
         stock j (inventory s2)
         = minus_opt (stock j (inventory s))
                     (lines_use (menu s1) j (Order.items order)))
  /\ (forall j item,
         Line.name item = name ->
         line_use (menu s1) j item
         = (uses j (ingredient_list ingredients) * Line.quantity item)%Z)
  /\ (forall j item,
         Line.name item <> name ->
         line_use (menu s1) j item = line_use (menu s) j item)
  /\ orders s2 = (orders s ++ [Order.with_status completed order])%list
  /\ Order.items (Order.with_status completed order) = Order.items order.
Proof.
  intros Hcur Hne Hlines Hn Hp Hc edited s1 s2.
  assert (E1 : s1 = set_menu (Dict.set name edited (menu s)) s).
  { unfold s1, step, handle.
    now rewrite (menu_form_accepted s name price category ingredients Hn Hp Hc). }
  assert (Hcur1 : current_order s1 = Some order) by (now rewrite E1).
  assert (Hlines1 : lines_on_menu (menu s1) (Order.items order)).
  { rewrite E1. simpl. now apply lines_on_menu_set. }
  assert (E2 : handle (OrderPage c t sel q CompleteOrder) s1
               = Returned [OrderCompleted]
                   (mkSession (menu s1)
                      (deduct_lines (menu s1) (Order.items order) (inventory s1))
                      (orders s1 ++ [Order.with_status completed order])
                      (order_counter s1)
                      (PrimFloat.add (daily_sales s1) (Order.total order))
                      None)).
  { simpl. now apply complete_press. }
  assert (Es2 : s2 = state_of (handle (OrderPage c t sel q CompleteOrder) s1))
    by reflexivity.
  rewrite E2 in Es2. simpl in Es2.
  assert (Hm1 : menu s1 = Dict.set name edited (menu s)) by (now rewrite E1).
  assert (Hi1 : inventory s1 = inventory s) by (now rewrite E1).
  assert (Ho1 : orders s1 = orders s) by (now rewrite E1).
  repeat split.
  - exact Hm1.
  - exact Hcur1.
  - exact Hi1.
  - rewrite E2, Es2. reflexivity.
  - rewrite Es2. simpl. now rewrite Hi1.
  - intros j. rewrite Es2. simpl. now rewrite stock_deduct_lines, Hi1.
  - intros j item Hitem. unfold line_use.
    now rewrite Hm1, Hitem, get_set_same.
  - intros j item Hitem. unfold line_use.
    rewrite Hm1, get_set_other by congruence. reflexivity.
  - rewrite Es2. simpl. now rewrite Ho1.
Qed.

Example espresso_rewritten_charges_milk :
  let s0 := init_session_state in
  let s := run s0 espresso_rewritten in
  all_offered s0 espresso_rewritten = true
  /\ stock "Milk" (inventory s0) = Some 50%Z
  /\ stock "Milk" (inventory s) = Some 47%Z
  /\ stock "Coffee beans" (inventory s) = stock "Coffee beans" (inventory s0)
  /\ stock "Water" (inventory s) = stock "Water" (inventory s0)
  /\ map Order.items (orders s)
     = [[Line.make "Espresso" 2.5 3 "Coffee" 7.5]]
  /\ daily_sales s = 7.5%float.
Proof. vm_compute. repeat split; reflexivity. Qed.

Lemma recipe_read_at_completion_witness :
  let s := run init_session_state (firstn 2 espresso_rewritten) in
  let s2 := run init_session_state espresso_rewritten in
  stock "Milk" (inventory s2)
  = minus_opt (stock "Milk" (inventory s))
      (lines_use (Dict.set "Espresso"
                    (MenuItem.make "Espresso" 9 "Special" ["Milk"]) (menu s))
         "Milk" [Line.make "Espresso" 2.5 3 "Coffee" 7.5]).
Proof.
  intros s s2.
  destruct (recipe_read_at_completion s
              (Order.make 1 "Walk-in" [Line.make "Espresso" 2.5 3 "Coffee" 7.5]
                          7.5 0 pending)
              "Espresso" 9 "Special" "Milk" "Walk-in" 0 EmptyString 1)
    as (Hm & _ & _ & _ & _ & H & _).
  - vm_compute. reflexivity.
  - discriminate.
  - repeat constructor. vm_compute. discriminate.
  - reflexivity.
  - reflexivity.
  - reflexivity.
  - rewrite Hm in H. exact (H "Milk").
Defined.

(* ================================================================== *)
(** * Scenario of the specification *)

Lemma stock_get ingredient inv x :
  stock ingredient inv = Some x ->
  exists it, Dict.get ingredient inv = Some it /\ InventoryItem.quantity it = x.
Proof.
  unfold stock. destruct (Dict.get ingredient inv) as [it|]; [|discriminate].
  intros [= <-]. now exists it.
Qed.

(** C6.  In any session with no current order, order counter 1, no sales
    yet, Espresso on the menu at 2.50 made of Coffee beans and Water, and
    Coffee beans = 100, Water = 200 in the ledger: Start New Order opens
    order 1; adding 3 Espresso is accepted and brings the total to 7.50;
    completing the order leaves Coffee beans = 97 and Water = 197, daily
    sales at 7.50, and files the order as completed. *)
Theorem espresso_scenario s category :
  current_order s = None ->
  order_counter s = 1%Z ->
  daily_sales s = 0%float ->
  Dict.get "Espresso" (menu s)
  = Some (MenuItem.make "Espresso" 2.50 category ["Coffee beans"; "Water"]) ->
  stock "Coffee beans" (inventory s) = Some 100%Z ->
  stock "Water" (inventory s) = Some 200%Z ->
  let s1 := step s (OrderPage "Walk-in" 0 EmptyString 1 StartNewOrder) in
  let add := handle (OrderPage "Walk-in" 0 "Espresso" 3 AddToOrder) s1 in
  let s2 := state_of add in
  let complete := handle (OrderPage "Walk-in" 0 EmptyString 1 CompleteOrder) s2 in
  let s3 := state_of complete in
  exists order,
    current_order s1 = Some (Order.init 1 "Walk-in" 0)
    /\ add = Returned [AddedToOrder 3 "Espresso"] s2
    /\ current_order s2 = Some order
    /\ Order.order_id order = 1%Z
    /\ Order.total order = 7.50%float
    /\ Order.status order = pending
    /\ inventory s2 = inventory s
    /\ complete = Returned [OrderCompleted] s3
    /\ stock "Coffee beans" (inventory s3) = Some 97%Z
    /\ stock "Water" (inventory s3) = Some 197%Z
    /\ daily_sales s3 = 7.50%float
    /\ orders s3 = (orders s ++ [Order.with_status completed order])%list
    /\ Order.status (Order.with_status completed order) = completed
    /\ current_order s3 = None.
Proof.
  intros Hcur Hctr Hsales Hmenu Hbeans Hwater s1 add s2 complete s3.
  destruct (stock_get _ _ _ Hbeans) as (beans & Gb & Qb).
  destruct (stock_get _ _ _ Hwater) as (water & Gw & Qw).
  set (espresso := MenuItem.make "Espresso" 2.50 category
                     ["Coffee beans"; "Water"]) in *.
  set (line := Line.make "Espresso" 2.50 3 category 7.50).
  set (order := Order.make 1 "Walk-in" [line] 7.50 0 pending).
  assert (E1 : s1 = mkSession (menu s) (inventory s) (orders s) (1 + 1)
                      (daily_sales s) (Some (Order.init 1 "Walk-in" 0))).
  { unfold s1, step, handle. rewrite (start_press _ _ _ _ _ Hcur), Hctr.
    reflexivity. }
  assert (Eadd : add = Returned [AddedToOrder 3 "Espresso"]
                         (set_current_order (Some order) s1)).
  { unfold add, handle.
    rewrite (add_press s1 (Order.init 1 "Walk-in" 0))
      by (rewrite E1; reflexivity).
    change (truthy "Espresso") with true. cbv iota.
    replace (menu s1) with (menu s) by (rewrite E1; reflexivity).
    replace (inventory s1) with (inventory s) by (rewrite E1; reflexivity).
    rewrite Hmenu. simpl first_short. rewrite Gb, Gw, Qb, Qw.
    reflexivity. }
  assert (E2 : s2 = set_current_order (Some order) s1)
    by (unfold s2; now rewrite Eadd).
  assert (Hm2 : menu s2 = menu s) by (rewrite E2, E1; reflexivity).
  assert (Hi2 : inventory s2 = inventory s) by (rewrite E2, E1; reflexivity).
  assert (Ecomp : complete
                  = Returned [OrderCompleted]
                      (mkSession (menu s2)
                         (deduct_lines (menu s2) [line] (inventory s2))
                         (orders s2 ++ [Order.with_status completed order])
                         (order_counter s2)
                         (PrimFloat.add (daily_sales s2) 7.50)
                         None)).
  { unfold complete, handle.
    apply (complete_press s2 order); [rewrite E2; reflexivity | discriminate |].
    repeat constructor. simpl. rewrite Hm2, Hmenu. discriminate. }
  assert (E3 : s3 = state_of complete) by reflexivity.
  rewrite Ecomp in E3. cbn [state_of] in E3.
  assert (Huse : forall j, lines_use (menu s2) j [line]
                           = (uses j ["Coffee beans"; "Water"] * 3 + 0)%Z).
  { intros j. simpl. unfold line_use. simpl. now rewrite Hm2, Hmenu. }
  exists order. repeat split.
  - rewrite E1. reflexivity.
  - rewrite Eadd, E2. reflexivity.
  - rewrite E2. reflexivity.
  - exact Hi2.
  - rewrite Ecomp, E3. reflexivity.
  - rewrite E3. cbn [inventory].
    rewrite stock_deduct_lines, Huse, Hi2, Hbeans. reflexivity.
  - rewrite E3. cbn [inventory].
    rewrite stock_deduct_lines, Huse, Hi2, Hwater. reflexivity.
  - rewrite E3. simpl. rewrite E2, E1. simpl. rewrite Hsales. reflexivity.
  - rewrite E3. simpl. rewrite E2, E1. reflexivity.
  - rewrite E3. reflexivity.
Qed.

Lemma espresso_scenario_witness :
  let s := init_session_state in
  let s1 := step s (OrderPage "Walk-in" 0 EmptyString 1 StartNewOrder) in
  let add := handle (OrderPage "Walk-in" 0 "Espresso" 3 AddToOrder) s1 in
  let s2 := state_of add in
  let complete := handle (OrderPage "Walk-in" 0 EmptyString 1 CompleteOrder) s2 in
  let s3 := state_of complete in
  exists order,
    current_order s1 = Some (Order.init 1 "Walk-in" 0)
    /\ add = Returned [AddedToOrder 3 "Espresso"] s2
    /\ current_order s2 = Some order
    /\ Order.order_id order = 1%Z
    /\ Order.total order = 7.50%float
    /\ Order.status order = pending
    /\ inventory s2 = inventory s
    /\ complete = Returned [OrderCompleted] s3
    /\ stock "Coffee beans" (inventory s3) = Some 97%Z
    /\ stock "Water" (inventory s3) = Some 197%Z
    /\ daily_sales s3 = 7.50%float
    /\ orders s3 = (orders s ++ [Order.with_status completed order])%list
    /\ Order.status (Order.with_status completed order) = completed
    /\ current_order s3 = None.
Proof.
  exact (espresso_scenario init_session_state "Coffee"
           eq_refl eq_refl eq_refl eq_refl eq_refl eq_refl).
Defined.

(** On the fresh session (Espresso at 2.50 made of Coffee beans and
    Water; Coffee beans = 100, Water = 200): starting order 1 and adding
    3 Espresso gives a pending order of total 7.50; completing it leaves
    Coffee beans = 97 and Water = 197, daily sales 7.50, and files the
    order as completed. *)
Example espresso_scenario_fresh_session :
  let s0 := init_session_state in
  let s1 := step s0 (OrderPage "Walk-in" 0 EmptyString 1 StartNewOrder) in
  let add := handle (OrderPage "Walk-in" 0 "Espresso" 3 AddToOrder) s1 in
  let s2 := state_of add in
  let s3 := step s2 (OrderPage "Walk-in" 0 EmptyString 1 CompleteOrder) in
  Dict.get "Espresso" (menu s0)
    = Some (MenuItem.make "Espresso" 2.50 "Coffee" ["Coffee beans"; "Water"])
  /\ stock "Coffee beans" (inventory s0) = Some 100%Z
  /\ stock "Water" (inventory s0) = Some 200%Z
  /\ option_map Order.order_id (current_order s1) = Some 1%Z
  /\ add = Returned [AddedToOrder 3 "Espresso"] s2
  /\ option_map Order.total (current_order s2) = Some 7.50%float
  /\ option_map Order.status (current_order s2) = Some pending
  /\ stock "Coffee beans" (inventory s3) = Some 97%Z
  /\ stock "Water" (inventory s3) = Some 197%Z
  /\ daily_sales s3 = 7.50%float
  /\ map Order.status (orders s3) = [completed]
  /\ map Order.total (orders s3) = [7.50%float]
  /\ current_order s3 = None.
Proof. vm_compute. repeat split; reflexivity. Qed.

(* ================================================================== *)
(** * The menu page: grouping by category *)

Lemma set_set {V} k (v v' : V) d :
  Dict.set k v (Dict.set k v' d) = Dict.set k v d.
Proof.
  induction d as [|[k0 v0] d IH]; simpl.
  - now rewrite String.eqb_refl.
  - destruct (String.eqb k k0) eqn:E; simpl.
    + now rewrite String.eqb_refl.
    + now rewrite E, IH.
Qed.

(** The two statements of the loop body amount to one assignment. *)
Lemma group_item_set categories item :
  group_item categories item
  = Dict.set (MenuItem.category item)
      (match Dict.get (MenuItem.category item) categories with
       | Some items => (items ++ [item])%list
       | None => [item]
       end) categories.
Proof.
  unfold group_item, Dict.mem.
  destruct (Dict.get (MenuItem.category item) categories) as [l|] eqn:E.
  - now rewrite E.
  - now rewrite get_set_same, set_set.
Qed.

Lemma get_grouped c items : forall d,
  Dict.get c (fold_left group_item items d)
  = match Dict.get c d with
    | Some l => Some (l ++ filter (in_category c) items)%list
    | None => match filter (in_category c) items with
              | [] => None
              | l => Some l
              end
    end.
Proof.
  induction items as [|it rest IH]; intros d; simpl.
  - destruct (Dict.get c d); [now rewrite app_nil_r | reflexivity].
  - rewrite IH, group_item_set.
    destruct (in_category c it) eqn:E; unfold in_category in E.
    + apply String.eqb_eq in E. subst c. rewrite get_set_same.
      destruct (Dict.get (MenuItem.category it) d) as [l|].
      * now rewrite <- app_assoc.
      * reflexivity.
    + apply String.eqb_neq in E. now rewrite get_set_other.
Qed.

Lemma keys_grouped items : forall d,
  Dict.keys (fold_left group_item items d)
  = fold_left (fun seen n =>
                 if existsb (String.eqb n) seen then seen
                 else (seen ++ [n])%list)
              (map MenuItem.category items) (Dict.keys d).
Proof.
  induction items as [|it rest IH]; intros d; simpl; [reflexivity|].
  rewrite IH, group_item_set. f_equal.
  destruct (existsb (String.eqb (MenuItem.category it)) (Dict.keys d)) eqn:E.
  - apply keys_set_present, get_some_in_keys.
    apply existsb_exists in E as (k & Hin & Hk).
    apply String.eqb_eq in Hk. now subst k.
  - rewrite set_absent.
    + unfold Dict.keys. now rewrite map_app.
    + apply get_none_not_in_keys. intros Hin.
      assert (existsb (String.eqb (MenuItem.category it)) (Dict.keys d) = true);
        [|congruence].
      apply existsb_exists. exists (MenuItem.category it).
      split; [exact Hin | apply String.eqb_refl].
Qed.

(** X1.  The menu page shows the categories in the order in which the menu
    first meets them, and under each category exactly the menu items of
    that category, in menu order; a category without items is not shown. *)
Theorem display_menu_groups s :
  exists categories,
    display_menu s = Returned categories s
    /\ Dict.keys categories
       = first_seen (map MenuItem.category (Dict.values (menu s)))
    /\ forall c,
         Dict.get c categories
         = match filter (in_category c) (Dict.values (menu s)) with
           | [] => None
           | items => Some items
           end.
Proof.
  eexists. split; [reflexivity|]. split.
  - unfold first_seen. now rewrite keys_grouped.
  - intros c. now rewrite get_grouped.
Qed.

Example fresh_menu_groups :
  option_map (fun o => map (fun e => (fst e, map MenuItem.name (snd e))) o)
    (match display_menu init_session_state with
     | Returned categories _ => Some categories
     | Raised _ _ => None
     end)
  = Some [ ("Coffee", ["Espresso"; "Americano"; "Cappuccino"; "Latte"; "Mocha"]);
           ("Pastry", ["Croissant"; "Muffin"]);
           ("Tea", ["Green Tea"]) ].
Proof. vm_compute. reflexivity. Qed.

(* ================================================================== *)
(** * The ingredient text area *)

Lemma lstrip_head s c r : lstrip s = String c r -> is_space c = false.
Proof.
  induction s as [|a s IH]; simpl; [discriminate|].
  destruct (is_space a) eqn:E; [exact IH|]. now intros [= <- _].
Qed.

Lemma lstrip_idem s : lstrip (lstrip s) = lstrip s.
Proof.
  destruct (lstrip s) as [|c r] eqn:E; [reflexivity|].
  simpl. now rewrite (lstrip_head _ _ _ E).
Qed.

Lemma rstrip_cons c s :
  is_space c = false -> rstrip (String c s) = String c (rstrip s).
Proof. intros H. simpl. rewrite H. now destruct (rstrip s). Qed.

Lemma rstrip_idem s : rstrip (rstrip s) = rstrip s.
Proof.
  induction s as [|c s IH]; [reflexivity|]. simpl.
  destruct (rstrip s) as [|d r] eqn:E.
  - destruct (is_space c) eqn:Ec; [reflexivity|]. simpl. now rewrite Ec.
  - change (rstrip (String c (String d r)))
      with (match rstrip (String d r) with
            | EmptyString =>
                if is_space c then EmptyString else String c EmptyString
            | r0 => String c r0
            end).
    now rewrite IH.
Qed.

Lemma lstrip_rstrip s : lstrip (rstrip (lstrip s)) = rstrip (lstrip s).
Proof.
  destruct (lstrip s) as [|c r] eqn:E; [reflexivity|].
  pose proof (lstrip_head _ _ _ E) as Hc.
  rewrite (rstrip_cons _ _ Hc). simpl. now rewrite Hc.
Qed.

Lemma strip_idem s : strip (strip s) = strip s.
Proof. unfold strip. now rewrite lstrip_rstrip, rstrip_idem. Qed.

Lemma lstrip_chars s c : In c (chars (lstrip s)) -> In c (chars s).
Proof.
  induction s as [|a s IH]; simpl; [tauto|].
  destruct (is_space a); simpl; auto.
Qed.

Lemma rstrip_chars s c : In c (chars (rstrip s)) -> In c (chars s).
Proof.
  induction s as [|a s IH]; simpl; [tauto|].
  destruct (rstrip s) as [|d r].
  - destruct (is_space a); simpl; tauto.
  - simpl in *. intros [H|H]; auto.
Qed.

Lemma split_newline_pieces s :
  Forall (fun piece => ~ In "010"%char (chars piece)) (split_newline s).
Proof.
  induction s as [|c s IH]; simpl.
  - constructor; [intros [] | constructor].
  - destruct (Ascii.eqb c "010") eqn:E.
    + constructor; [intros [] | exact IH].
    + apply Ascii.eqb_neq in E.
      destruct (split_newline s) as [|w ws].
      * constructor; [|constructor]. simpl. intros [H|[]]. congruence.
      * inversion IH as [|? ? Hw Hws]; subst. constructor; [|exact Hws].
        simpl. intros [H|H]; [congruence | auto].
Qed.

(** X2.  Every ingredient that the menu form stores is clean: it is not
    empty, carries no white space at either end and no line break. *)
Theorem ingredient_list_entries_clean text :
  Forall clean_entry (ingredient_list text).
Proof.
  unfold ingredient_list. apply Forall_forall. intros i Hi.
  apply in_map_iff in Hi as (piece & <- & Hp).
  apply filter_In in Hp as [Hin Ht].
  unfold clean_entry. split; [|split; [|split]].
  - intros E. rewrite E in Ht. discriminate.
  - unfold strip. apply lstrip_rstrip.
  - unfold strip. apply rstrip_idem.
  - intros Hnl. apply rstrip_chars, lstrip_chars in Hnl.
    pose proof (split_newline_pieces text) as Hall.
    rewrite Forall_forall in Hall. exact (Hall piece Hin Hnl).
Qed.

Lemma split_newline_single p :
  ~ In "010"%char (chars p) -> split_newline p = [p].
Proof.
  induction p as [|c p IH]; simpl; [reflexivity|]. intros H.
  destruct (Ascii.eqb c "010") eqn:E.
  - apply Ascii.eqb_eq in E. exfalso. apply H. now left.
  - rewrite IH by tauto. reflexivity.
Qed.

Lemma split_newline_app p rest :
  ~ In "010"%char (chars p) ->
  split_newline (p ++ String "010" rest) = p :: split_newline rest.
Proof.
  induction p as [|c p IH]; simpl; [reflexivity|]. intros H.
  destruct (Ascii.eqb c "010") eqn:E.
  - apply Ascii.eqb_eq in E. exfalso. apply H. now left.
  - rewrite IH by tauto. reflexivity.
Qed.

Lemma split_join entries :
  Forall (fun e => ~ In "010"%char (chars e)) entries ->
  entries <> [] ->
  split_newline (join_newline entries) = entries.
Proof.
  induction 1 as [|e rest He Hrest IH]; [congruence|]. intros _.
  destruct rest as [|e' rest'].
  - simpl. now apply split_newline_single.
  - change (join_newline (e :: e' :: rest'))
      with (e ++ String "010" (join_newline (e' :: rest'))).
    rewrite split_newline_app by exact He. f_equal. apply IH. discriminate.
Qed.

Lemma clean_entry_strip i : clean_entry i -> strip i = i /\ truthy i = true.
Proof.
  intros (Hne & Hl & Hr & _). unfold strip. rewrite Hl, Hr. split; auto.
  destruct i; [congruence | reflexivity].
Qed.

(** X3.  Typing clean ingredients one per line gives back exactly those
    ingredients, in order: the text area round-trips. *)
Theorem ingredient_list_join entries :
  Forall clean_entry entries ->
  ingredient_list (join_newline entries) = entries.
Proof.
  intros Hclean. destruct entries as [|e rest]; [reflexivity|].
  unfold ingredient_list. rewrite split_join.
  - induction Hclean as [|i l Hi Hl IH]; [reflexivity|].
    destruct (clean_entry_strip i Hi) as [Hs Ht].
    simpl. rewrite Hs, Ht. simpl. now rewrite Hs, IH.
  - apply (Forall_impl _ (P := clean_entry)); [|exact Hclean].
    now intros i (_ & _ & _ & H).
  - discriminate.
Qed.

Lemma ingredient_list_join_witness :
  ingredient_list (join_newline ["Flour"; "Brown sugar"; "Eggs"])
  = ["Flour"; "Brown sugar"; "Eggs"].
Proof.
  apply ingredient_list_join.
  repeat constructor; try discriminate;
    vm_compute; intuition discriminate.
Defined.

(* ================================================================== *)
(** * Order ids and lines *)

Lemma sorted_snoc (l : list Z) x :
  StronglySorted Z.lt l -> Forall (fun i => (i < x)%Z) l ->
  StronglySorted Z.lt (l ++ [x]).
Proof.
  induction 1 as [|a l Hs IH Ha]; intros Hx; simpl.
  - repeat constructor.
  - inversion Hx as [|? ? Hax Hlx]; subst. constructor; [now apply IH|].
    apply Forall_app. split; [exact Ha | now constructor].
Qed.

Lemma sorted_nodup (l : list Z) : StronglySorted Z.lt l -> NoDup l.
Proof.
  induction 1 as [|a l Hs IH Ha]; constructor; [|exact IH].
  intros Hin. rewrite Forall_forall in Ha. specialize (Ha a Hin). lia.
Qed.

Lemma line_sound_set m k v item :
  line_sound m item -> line_sound (Dict.set k v m) item.
Proof.
  intros [Hq Hm]. split; [exact Hq|].
  apply get_some_in_keys, keys_set_incl, get_some_in_keys, Hm.
Qed.

Lemma lines_sound_on_menu m lines :
  Forall (line_sound m) lines -> lines_on_menu m lines.
Proof. apply Forall_impl. now intros l [_ H]. Qed.

Lemma Inv2_init : Inv2 init_session_state.
Proof.
  split.
  - constructor.
  - constructor.
  - simpl. lia.
  - intros o H. discriminate H.
  - constructor.
Qed.

Lemma Inv2_same s s' :
  Inv2 s ->
  menu s' = menu s -> orders s' = orders s ->
  order_counter s' = order_counter s -> current_order s' = current_order s ->
  Inv2 s'.
Proof.
  intros [H1 H2 H3 H4 H5] Hm Ho Hc Hcur.
  split; unfold open_ids in *; rewrite ?Hm, ?Ho, ?Hc, ?Hcur; auto.
Qed.

Lemma Inv2_step s a : Inv s -> Inv2 s -> offered s a = true -> Inv2 (step s a).
Proof.
  intros [Hm Hc Hh Hs] H2 Hoff.
  pose proof H2 as [I1 I2 I3 I4 I5].
  destruct a as [c t sel q b|n p cat ing|n q u ms].
  - unfold step, handle. destruct (current_order s) as [o|] eqn:Ecur.
    + pose proof (I4 o eq_refl) as Hsound. destruct b.
      * rewrite (start_press_ignored _ _ _ _ _ _ Ecur). exact H2.
      * rewrite (add_press _ _ _ _ _ _ Ecur).
        destruct (truthy sel) eqn:Et; [|exact H2].
        pose proof (offered_selected _ _ _ _ _ _ Hoff Et) as Hsel.
        destruct (Dict.get sel (menu s)) as [mi|] eqn:Eg; [|congruence].
        destruct (first_short _ _ _); [exact H2|].
        destruct (Order.add_item mi q o) as [e|o'] eqn:Ea; [exact H2|].
        destruct (add_item_inr _ _ _ _ Ea) as (sub & _ & Hi & _ & _ & Hid & _).
        simpl in Hoff. apply andb_prop in Hoff as [_ Hq].
        apply Z.leb_le in Hq.
        split; unfold open_ids in *; simpl; rewrite ?Ecur in *; auto.
        -- now rewrite Hid.
        -- now rewrite Hid.
        -- intros ? [= <-]. rewrite Hi. apply Forall_app. split; [exact Hsound|].
           constructor; [|constructor]. split; simpl; [exact Hq|].
           rewrite (Hm _ _ Eg). congruence.
      * destruct (Order.items o) eqn:Ei.
        -- rewrite (finish_press_empty _ _ _ _ _ _ _ Ecur Ei) by auto. exact H2.
        -- rewrite (complete_press _ _ _ _ _ _ Ecur)
             by (rewrite ?Ei;
                 first [congruence | apply lines_sound_on_menu; exact Hsound]).
           split; unfold open_ids in *; simpl; rewrite ?Ecur in *; auto.
           ++ now rewrite map_app, app_nil_r.
           ++ now rewrite map_app, app_nil_r.
           ++ discriminate.
           ++ apply Forall_app. split; [exact I5|].
              constructor; [|constructor]. simpl. rewrite Ei.
              split; [discriminate | exact Hsound].
      * destruct (Order.items o) eqn:Ei.
        -- rewrite (finish_press_empty _ _ _ _ _ _ _ Ecur Ei) by auto. exact H2.
        -- rewrite (cancel_press _ _ _ _ _ _ Ecur) by (rewrite Ei; congruence).
           split; unfold open_ids in *; simpl; rewrite ?Ecur in *; auto.
           ++ now rewrite map_app, app_nil_r.
           ++ now rewrite map_app, app_nil_r.
           ++ discriminate.
           ++ apply Forall_app. split; [exact I5|].
              constructor; [|constructor]. simpl. rewrite Ei.
              split; [discriminate | exact Hsound].
    + destruct b.
      * rewrite (start_press _ _ _ _ _ Ecur).
        unfold open_ids in *. rewrite Ecur, app_nil_r in *.
        split; unfold open_ids; simpl.
        -- apply sorted_snoc; [exact I1|].
           apply (Forall_impl _ (P := fun i => (1 <= i < order_counter s)%Z));
             [intros; lia | exact I2].
        -- apply Forall_app. split.
           ++ apply (Forall_impl _
                       (P := fun i => (1 <= i < order_counter s)%Z));
                [intros; lia | exact I2].
           ++ constructor; [lia | constructor].
        -- lia.
        -- intros ? [= <-]. constructor.
        -- exact I5.
      * rewrite no_order_press by (auto; discriminate). exact H2.
      * rewrite no_order_press by (auto; discriminate). exact H2.
      * rewrite no_order_press by (auto; discriminate). exact H2.
  - destruct (menu_form_cases s n p cat ing) as [->| ->]; [exact H2|].
    split; unfold open_ids in *; simpl; auto.
    + intros o Ho. apply (Forall_impl _ (P := line_sound (menu s)));
        [intros; now apply line_sound_set | now apply I4].
    + revert I5. apply Forall_impl. intros o [Hne Hl]. split; [exact Hne|].
      revert Hl. apply Forall_impl. intros; now apply line_sound_set.
  - destruct (inventory_form_cases s n q u ms) as [inv' ->].
    now apply (Inv2_same s).
Qed.

Lemma reachable_Inv2 s : reachable s -> Inv2 s.
Proof.
  induction 1 as [|s a Hr IH Hoff]; [exact Inv2_init|].
  apply Inv2_step; [now apply reachable_Inv | exact IH | exact Hoff].
Qed.

(** X4.  Order ids are handed out in increasing order: in every reachable
    session the ids of the filed orders, in filing order, followed by the id
    of the current order are strictly increasing, hence distinct, and lie
    between 1 and the order counter (exclusive). *)
Theorem order_ids_increase s :
  reachable s ->
  StronglySorted Z.lt (open_ids s)
  /\ NoDup (open_ids s)
  /\ Forall (fun i => (1 <= i < order_counter s)%Z) (open_ids s).
Proof.
  intros Hr. destruct (reachable_Inv2 s Hr) as [H1 H2 _ _ _].
  split; [exact H1|]. split; [now apply sorted_nodup | exact H2].
Qed.

Lemma order_ids_increase_witness :
  StronglySorted Z.lt (open_ids (run init_session_state muffin_latte_twice))
  /\ NoDup (open_ids (run init_session_state muffin_latte_twice))
  /\ Forall (fun i =>
               (1 <= i
                < order_counter (run init_session_state muffin_latte_twice))%Z)
            (open_ids (run init_session_state muffin_latte_twice)).
Proof.
  exact (order_ids_increase _
           (reachable_run _ muffin_latte_twice reachable_init eq_refl)).
Defined.

Lemma filed_orders_sound_lemma s :
  reachable s ->
  forall o, In o (orders s) ->
    Order.items o <> []
    /\ Forall (fun item =>
                 In (Line.name item) (Dict.keys (menu s))
                 /\ (1 <= Line.quantity item)%Z)
              (Order.items o).
Proof.
  intros Hr o Ho. destruct (reachable_Inv2 s Hr) as [_ _ _ _ H].
  rewrite Forall_forall in H. destruct (H o Ho) as [Hne Hl].
  split; [exact Hne|]. revert Hl. apply Forall_impl.
  intros l [Hq Hm]. split; [now apply get_some_in_keys | exact Hq].
Qed.

(** X5.  No empty order is ever filed, and every line of a filed order asks
    for at least one unit of an item that is still on the menu. *)
Theorem filed_orders_have_sound_lines s :
  reachable s ->
  forall o, In o (orders s) ->
    Order.items o <> []
    /\ Forall (fun item =>
                 (1 <= Line.quantity item)%Z
                 /\ In (Line.name item) (Dict.keys (menu s)))
              (Order.items o).
Proof.
  intros Hr o Ho. destruct (reachable_Inv2 s Hr) as [_ _ _ _ H].
  rewrite Forall_forall in H. destruct (H o Ho) as [Hne Hl].
  split; [exact Hne|]. revert Hl. apply Forall_impl.
  intros l [Hq Hm]. split; [exact Hq | now apply get_some_in_keys].
Qed.

Lemma filed_orders_have_sound_lines_witness :
  Forall (fun o =>
            Order.items o <> []
            /\ Forall (fun item =>
                         (1 <= Line.quantity item)%Z
                         /\ In (Line.name item)
                               (Dict.keys
                                  (menu (run init_session_state two_orders))))
                      (Order.items o))
         (orders (run init_session_state two_orders)).
Proof.
  apply Forall_forall.
  exact (filed_orders_have_sound_lines _
           (reachable_run _ two_orders reachable_init eq_refl)).
Defined.

(* ================================================================== *)
(** * Exceptions *)

Lemma Button_eq_dec_add (b : Button) : {b = AddToOrder} + {b <> AddToOrder}.
Proof. destruct b; (now left) || (right; discriminate). Qed.

Lemma Button_eq_dec_complete (b : Button) :
  {b = CompleteOrder} + {b <> CompleteOrder}.
Proof. destruct b; (now left) || (right; discriminate). Qed.

(** X6.  In a reachable session a run of the script on widget values ends
    normally, with one exception: adding a line whose quantity is too
    large for a float stops on [OverflowError] and leaves the session as it
    was.  In particular no menu lookup raises [KeyError]. *)
Theorem pages_raise_no_key_error s a :
  reachable s -> offered s a = true ->
  (exists msgs, handle a s = Returned msgs (step s a))
  \/ (handle a s = Raised OverflowError s
      /\ exists c t sel q,
           a = OrderPage c t sel q AddToOrder /\ float_of_Z q = None).
Proof.
  intros Hr Hoff. pose proof (reachable_Inv s Hr) as HI.
  destruct a as [c t sel q b|n p cat ing|n q u ms].
  - destruct (Button_eq_dec_add b) as [->|Hb].
    + destruct HI as [Hm Hc Hh Hs]. unfold step. simpl handle.
      destruct (current_order s) as [o|] eqn:Ecur.
      * rewrite (add_press _ _ _ _ _ _ Ecur).
        destruct (truthy sel) eqn:Et; [|left; eauto].
        pose proof (offered_selected _ _ _ _ _ _ Hoff Et) as Hsel.
        destruct (Dict.get sel (menu s)) as [mi|] eqn:Eg; [|congruence].
        destruct (first_short _ _ _); [left; eauto|].
        unfold Order.add_item, float_mul_int.
        destruct (float_of_Z q) eqn:Ef; [left; eauto|].
        right. split; [reflexivity|]. now exists c, t, sel, q.
      * rewrite no_order_press by (auto; discriminate). left. eauto.
    + left. destruct (handle_returns s (OrderPage c t sel q b) HI Hoff)
        as [(msgs & s' & H)|H].
      * exists msgs. unfold step. now rewrite H.
      * exfalso. revert H. simpl handle.
        destruct (current_order s) as [o|] eqn:Ecur.
        -- destruct b; try congruence.
           ++ now rewrite (start_press_ignored _ _ _ _ _ _ Ecur).
           ++ destruct (complete_order_cases o s) as [(i & Hi)|(k & i & Hi)];
                unfold create_order_page; unfold bind at 1, gets at 1;
                rewrite Ecur; destruct (Order.items o); try discriminate;
                unfold bind at 1; rewrite Hi; discriminate.
           ++ unfold create_order_page. unfold bind at 1, gets at 1.
              rewrite Ecur. destruct (Order.items o); discriminate.
        -- destruct b; try congruence.
           ++ now rewrite (start_press _ _ _ _ _ Ecur).
           ++ now rewrite no_order_press by (auto; discriminate).
           ++ now rewrite no_order_press by (auto; discriminate).
  - left. destruct (handle_returns s _ HI Hoff) as [(msgs & s' & H)|H].
    + exists msgs. unfold step. now rewrite H.
    + exfalso. revert H. simpl handle. unfold add_menu_item_page.
      destruct (truthy n); simpl; [|discriminate].
      destruct (PrimFloat.leb p 0); [discriminate|].
      destruct (truthy cat); simpl; discriminate.
  - left. destruct (handle_returns s _ HI Hoff) as [(msgs & s' & H)|H].
    + exists msgs. unfold step. now rewrite H.
    + exfalso. revert H. simpl handle. unfold display_inventory.
      destruct (truthy n && (0 <? q)%Z && truthy u); [|discriminate].
      unfold_monad. destruct (Dict.get n (inventory s)); discriminate.
Qed.

Lemma pages_raise_no_key_error_witness :
  let s := run init_session_state (firstn 1 espresso_order) in
  let a := OrderPage "Walk-in" 0 "Espresso" 3 AddToOrder in
  (exists msgs, handle a s = Returned msgs (step s a))
  \/ (handle a s = Raised OverflowError s
      /\ exists c t sel q,
           a = OrderPage c t sel q AddToOrder /\ float_of_Z q = None).
Proof.
  exact (pages_raise_no_key_error
           (run init_session_state (firstn 1 espresso_order))
           (OrderPage "Walk-in" 0 "Espresso" 3 AddToOrder)
           (reachable_run _ (firstn 1 espresso_order) reachable_init eq_refl)
           eq_refl).
Defined.

Lemma for_each_app {A} (xs ys : list A) body s :
  for_each (xs ++ ys) body s
  = match for_each xs body s with
    | Returned _ s' => for_each ys body s'
    | Raised e s' => Raised e s'
    end.
Proof.
  revert s. induction xs as [|x xs IH]; intros s; [reflexivity|].
  simpl app. rewrite !for_each_cons. destruct (body x s); [apply IH | reflexivity].
Qed.

(** X7.  [complete_order] is not atomic.  If a line names an item that is
    not on the menu, the call stops there on [KeyError]: the lines before
    it have been charged to the ledger, while the order is not filed and
    the sales accumulator is not touched. *)
Theorem complete_order_stops_at_missing_item order s before item after :
  Order.items order = (before ++ item :: after)%list ->
  lines_on_menu (menu s) before ->
  Dict.get (Line.name item) (menu s) = None ->
  complete_order order s
  = Raised (KeyError (Line.name item))
      (set_inventory (deduct_lines (menu s) before (inventory s)) s).
Proof.
  intros Hi Hb Hm. unfold complete_order. unfold bind at 1.
  rewrite Hi, for_each_app, (deduct_loop_returns _ _ Hb).
  rewrite for_each_cons. cbv beta. rewrite deduct_line_run.
  cbn [menu set_inventory]. now rewrite Hm.
Qed.

Lemma complete_order_stops_at_missing_item_witness :
  let order :=
    Order.make 7 "Walk-in"
      [ Line.make "Espresso" 2.5 3 "Coffee" 7.5;
        Line.make "Scone" 3 1 "Pastry" 3;
        Line.make "Latte" 4.5 2 "Coffee" 9 ] 19.5 0 pending in
  let result := complete_order order init_session_state in
  result
  = Raised (KeyError "Scone")
      (set_inventory
         (deduct_lines (menu init_session_state)
            [Line.make "Espresso" 2.5 3 "Coffee" 7.5]
            (inventory init_session_state))
         init_session_state)
  /\ stock "Coffee beans" (inventory (state_of result)) = Some 97%Z
  /\ stock "Milk" (inventory (state_of result)) = Some 50%Z
  /\ orders (state_of result) = []
  /\ daily_sales (state_of result) = 0%float.
Proof.
  cbv zeta. split.
  - apply (complete_order_stops_at_missing_item
             (Order.make 7 "Walk-in"
                [ Line.make "Espresso" 2.5 3 "Coffee" 7.5;
                  Line.make "Scone" 3 1 "Pastry" 3;
                  Line.make "Latte" 4.5 2 "Coffee" 9 ] 19.5 0 pending)
             init_session_state
             [Line.make "Espresso" 2.5 3 "Coffee" 7.5]
             (Line.make "Scone" 3 1 "Pastry" 3)
             [Line.make "Latte" 4.5 2 "Coffee" 9]).
    + reflexivity.
    + repeat constructor. vm_compute. discriminate.
    + reflexivity.
  - vm_compute. repeat split; reflexivity.
Defined.

(* ================================================================== *)
(** * Entries are never deleted *)

Lemma keys_deduct_in i q inv : Dict.keys (deduct_in i q inv) = Dict.keys inv.
Proof.
  unfold deduct_in. destruct (Dict.get i inv) eqn:E; [|reflexivity].
  apply keys_set_present. congruence.
Qed.

Lemma keys_deduct_recipe recipe q : forall inv,
  Dict.keys (deduct_recipe recipe q inv) = Dict.keys inv.
Proof.
  unfold deduct_recipe. induction recipe as [|i rest IH]; intros inv; simpl.
  - reflexivity.
  - now rewrite IH, keys_deduct_in.
Qed.

Lemma deduct_loop_keys lines : forall s,
  let result :=
    for_each lines (fun item =>
      menu_item <- menu_getitem (Line.name item) ;;
      for_each (MenuItem.ingredients menu_item) (fun ingredient =>
        deduct ingredient (Line.quantity item))) s in
  exists inv',
    state_of result = set_inventory inv' s
    /\ Dict.keys inv' = Dict.keys (inventory s).
Proof.
  cbv zeta. induction lines as [|l rest IH]; intros s.
  - exists (inventory s). simpl. now rewrite set_inventory_same.
  - rewrite for_each_cons. cbv beta. rewrite deduct_line_run.
    destruct (Dict.get (Line.name l) (menu s)) as [mi|].
    + destruct (IH (set_inventory
                      (deduct_recipe (MenuItem.ingredients mi)
                         (Line.quantity l) (inventory s)) s))
        as (inv' & -> & Hk).
      exists inv'. split; [reflexivity|].
      rewrite Hk. simpl. apply keys_deduct_recipe.
    + exists (inventory s). simpl. now rewrite set_inventory_same.
Qed.

Lemma complete_order_keys order s :
  menu (state_of (complete_order order s)) = menu s
  /\ Dict.keys (inventory (state_of (complete_order order s)))
     = Dict.keys (inventory s).
Proof.
  destruct (deduct_loop_keys (Order.items order) s) as (inv' & Hst & Hk).
  remember (complete_order order s) as result eqn:Er.
  unfold complete_order in Er. unfold bind at 1 in Er.
  match type of Hst with
  | state_of ?r = _ => destruct r as [[] s'|e s']
  end; simpl in Hst; subst s' result; simpl; auto.
Qed.

Lemma step_keys s a :
  exists new_items new_stock,
    Dict.keys (menu (step s a)) = (Dict.keys (menu s) ++ new_items)%list
    /\ Dict.keys (inventory (step s a))
       = (Dict.keys (inventory s) ++ new_stock)%list.
Proof.
  destruct a as [c t sel q b|n p cat ing|n q u ms].
  - exists [], []. rewrite !app_nil_r, order_page_menu. split; [reflexivity|].
    destruct (Button_eq_dec_complete b) as [->|Hb].
    + unfold step, handle, create_order_page. unfold bind at 1, gets at 1.
      destruct (current_order s) as [o|]; [|reflexivity].
      destruct (Order.items o); [reflexivity|].
      unfold bind at 1.
      destruct (complete_order_keys o s) as [_ Hk].
      destruct (complete_order o s); simpl in *; exact Hk.
    + now destruct (order_page_frame s c t sel q b Hb) as [-> _].
  - destruct (menu_form_cases s n p cat ing) as [->| ->].
    + exists [], []. now rewrite !app_nil_r.
    + simpl. destruct (Dict.get n (menu s)) eqn:E.
      * exists [], []. rewrite !app_nil_r.
        rewrite keys_set_present by congruence. auto.
      * exists [n], []. rewrite app_nil_r, set_absent by exact E.
        unfold Dict.keys. rewrite map_app. auto.
  - unfold step, handle, display_inventory.
    destruct (truthy n && (0 <? q)%Z && truthy u).
    + unfold_monad. destruct (Dict.get n (inventory s)) eqn:E; simpl.
      * exists [], []. rewrite !app_nil_r.
        rewrite keys_set_present by congruence. auto.
      * exists [], [n]. rewrite app_nil_r, set_absent by exact E.
        unfold Dict.keys. rewrite map_app. auto.
    + exists [], []. now rewrite !app_nil_r.
Qed.

Lemma run_keys actions : forall s,
  exists new_items new_stock,
    Dict.keys (menu (run s actions)) = (Dict.keys (menu s) ++ new_items)%list
    /\ Dict.keys (inventory (run s actions))
       = (Dict.keys (inventory s) ++ new_stock)%list.
Proof.
  induction actions as [|a rest IH]; intros s.
  - exists [], []. now rewrite !app_nil_r.
  - change (run s (a :: rest)) with (run (step s a) rest).
    destruct (IH (step s a)) as (m2 & i2 & -> & ->).
    destruct (step_keys s a) as (m1 & i1 & -> & ->).
    exists (m1 ++ m2)%list, (i1 ++ i2)%list. now rewrite !app_assoc.
Qed.

(** X8.  Nothing is ever deleted or reordered: over any sequence of
    actions from any session, the names on the menu and the names in the
    ledger stay where they are, and new names are only added after them. *)
Theorem entries_are_never_deleted s actions :
  exists new_items new_stock,
    Dict.keys (menu (run s actions)) = (Dict.keys (menu s) ++ new_items)%list
    /\ Dict.keys (inventory (run s actions))
       = (Dict.keys (inventory s) ++ new_stock)%list.
Proof. apply run_keys. Qed.

(* ================================================================== *)
(** * The inventory form *)

(** X9.  The inventory form does nothing on an empty name, a quantity
    [<= 0] or an empty unit.  Otherwise, for a name the ledger has, it adds
    the quantity and keeps the stored unit and minimum stock (the submitted
    ones are ignored) and the entry's place; for a new name it appends an
    entry with the submitted values.  Other entries are untouched. *)
Theorem inventory_form_upsert s item_name quantity unit min_stock :
  let result := display_inventory item_name quantity unit min_stock s in
  (item_name = EmptyString \/ (quantity <= 0)%Z \/ unit = EmptyString ->
   result = Returned [] s)
  /\ (item_name <> EmptyString -> (0 < quantity)%Z -> unit <> EmptyString ->
      (forall it,
          Dict.get item_name (inventory s) = Some it ->
          let it' :=
            InventoryItem.make (InventoryItem.name it)
              (InventoryItem.quantity it + quantity)
              (InventoryItem.unit it) (InventoryItem.min_stock it) in
          result
          = Returned
              [InventoryUpdated item_name
                 (InventoryItem.quantity it + quantity) unit]
              (set_inventory (Dict.set item_name it' (inventory s)) s)
          /\ Dict.get item_name (inventory (state_of result)) = Some it'
          /\ Dict.keys (inventory (state_of result))
             = Dict.keys (inventory s))
      /\ (Dict.get item_name (inventory s) = None ->
          result
          = Returned [InventoryAdded item_name quantity unit]
              (set_inventory
                 (inventory s
                  ++ [(item_name,
                       InventoryItem.make item_name quantity unit
                                          min_stock)])%list
                 s))
      /\ (forall k, k <> item_name ->
            Dict.get k (inventory (state_of result))
            = Dict.get k (inventory s))).
Proof.
  cbv zeta. unfold display_inventory. split.
  - intros H.
    destruct (truthy item_name) eqn:En; [|reflexivity].
    destruct (0 <? quantity)%Z eqn:Eq; [|reflexivity].
    destruct (truthy unit) eqn:Eu; [|reflexivity].
    apply truthy_true_iff in En, Eu. apply Z.ltb_lt in Eq.
    destruct H as [H|[H|H]]; [congruence | lia | congruence].
  - intros Hn Hq Hu.
    apply truthy_true_iff in Hn, Hu. apply Z.ltb_lt in Hq.
    rewrite Hn, Hq, Hu. simpl andb. cbv iota. unfold_monad.
    split; [|split].
    + intros it Hit. rewrite Hit. simpl.
      split; [reflexivity|]. split; [apply get_set_same|].
      apply keys_set_present. congruence.
    + intros Hnone. rewrite Hnone. simpl. now rewrite set_absent.
    + intros k Hk. destruct (Dict.get item_name (inventory s)); simpl;
        apply get_set_other; congruence.
Qed.

Lemma inventory_form_upsert_witness :
  (let result := display_inventory "Milk" 0 "liters" 10 init_session_state in
   result = Returned [] init_session_state)
  /\ (let result := display_inventory "Milk" 5 "cups" 99 init_session_state in
      Dict.get "Milk" (inventory (state_of result))
      = Some (InventoryItem.make "Milk" (50 + 5) "liters" 10)
      /\ Dict.keys (inventory (state_of result))
         = Dict.keys (inventory init_session_state)).
Proof.
  split.
  - apply (proj1 (inventory_form_upsert init_session_state "Milk" 0
                    "liters" 10)).
    right. left. lia.
  - destruct (proj2 (inventory_form_upsert init_session_state "Milk" 5
                       "cups" 99)) as (H & _ & _).
    + discriminate.
    + lia.
    + discriminate.
    + destruct (H (InventoryItem.make "Milk" 50 "liters" 10) eq_refl)
        as (_ & Hg & Hk).
      split; [exact Hg | exact Hk].
Defined.

(* ================================================================== *)
(** * The orders page *)

Lemma filter_all {A} (f : A -> bool) l :
  Forall (fun x => f x = true) l -> filter f l = l.
Proof. induction 1 as [|x l Hx _ IH]; simpl; [|rewrite Hx, IH]; auto. Qed.

Lemma filter_none {A} (f : A -> bool) l :
  Forall (fun x => f x = false) l -> filter f l = [].
Proof. induction 1 as [|x l Hx _ IH]; simpl; [|rewrite Hx]; auto. Qed.

Lemma passes_completed o :
  passes_filter "completed" o
  = match Order.status o with completed => true | _ => false end.
Proof. unfold passes_filter. now destruct (Order.status o). Qed.

Lemma passes_cancelled o :
  passes_filter "cancelled" o
  = match Order.status o with cancelled => true | _ => false end.
Proof. unfold passes_filter. now destruct (Order.status o). Qed.

Lemma filed_orders_partition (os : list Order.t) :
  Forall (fun o => Order.status o <> pending) os ->
  Permutation os
    (filter (passes_filter "completed") os
     ++ filter (passes_filter "cancelled") os).
Proof.
  induction 1 as [|o os Hp _ IH]; simpl; [constructor|].
  rewrite passes_completed, passes_cancelled.
  destruct (Order.status o); [congruence | |]; cbv iota.
  + simpl. now constructor.
  + now apply Permutation_cons_app.
Qed.

(** X10.  On the orders page of a reachable session: with an empty history
    every filter shows "No orders yet"; otherwise "All" lists every filed
    order in filing order, "pending" never finds an order, and each filed
    order is listed under exactly one of "completed" and "cancelled". *)
Theorem view_orders_filters strftime s :
  reachable s ->
  (orders s = [] ->
   forall status_filter,
     view_orders strftime status_filter s = Returned NoOrdersYet s)
  /\ (orders s <> [] ->
      view_orders strftime "All" s
      = Returned (OrdersTable (map (order_to_dict strftime) (orders s))) s
      /\ view_orders strftime "pending" s
         = Returned (NoOrdersFound "pending") s)
  /\ Permutation (orders s)
       (filter (passes_filter "completed") (orders s)
        ++ filter (passes_filter "cancelled") (orders s)).
Proof.
  intros Hr. destruct (reachable_Inv s Hr) as [_ _ Hh _].
  assert (Hall : Forall (fun o => passes_filter "All" o = true) (orders s)).
  { apply Forall_forall. intros o _. reflexivity. }
  assert (Hpend : Forall (fun o => passes_filter "pending" o = false)
                         (orders s)).
  { revert Hh. apply Forall_impl. intros o [Hp _]. unfold passes_filter.
    destruct (Order.status o); [congruence | reflexivity | reflexivity]. }
  split; [|split].
  - intros E f. unfold view_orders. unfold_monad. now rewrite E.
  - intros Hne. unfold view_orders. unfold_monad.
    rewrite (filter_all _ _ Hall), (filter_none _ _ Hpend).
    destruct (orders s) as [|o os]; [congruence|]. split; reflexivity.
  - apply filed_orders_partition. revert Hh. apply Forall_impl. tauto.
Qed.

Lemma view_orders_filters_witness :
  (let s := run init_session_state two_orders in
   view_orders (fun _ => EmptyString) "pending" s
   = Returned (NoOrdersFound "pending") s)
  /\ (forall status_filter,
        view_orders (fun _ => EmptyString) status_filter init_session_state
        = Returned NoOrdersYet init_session_state).
Proof.
  split.
  - refine (proj2 (proj1 (proj2
              (view_orders_filters (fun _ => EmptyString)
                 (run init_session_state two_orders)
                 (reachable_run _ two_orders reachable_init eq_refl))) _)).
    vm_compute. discriminate.
  - exact (proj1 (view_orders_filters (fun _ => EmptyString) init_session_state
                    reachable_init) eq_refl).
Defined.

(* ================================================================== *)
(** * What moves the daily report *)

(** The report reads the completed orders and the sales accumulator, and
    nothing else. *)
Lemma daily_report_reads sort_values s s' :
  filter is_completed (orders s') = filter is_completed (orders s) ->
  daily_sales s' = daily_sales s ->
  match daily_report sort_values s with
  | Returned r _ => daily_report sort_values s' = Returned r s'
  | Raised e _ => daily_report sort_values s' = Raised e s'
  end.
Proof.
  intros Ho Hd. unfold daily_report. unfold_monad. rewrite Ho, Hd.
  destruct (filter is_completed (orders s)) as [|o os]; [reflexivity|].
  destruct (float_div_int _ _); reflexivity.
Qed.

(** Any press on the order page other than Complete adds no completed
    order to the history. *)
Lemma order_page_completed_frame s c t sel q b :
  b <> CompleteOrder ->
  filter is_completed (orders (step s (OrderPage c t sel q b)))
  = filter is_completed (orders s).
Proof.
  intros Hb. unfold step, handle.
  destruct (current_order s) as [o|] eqn:Ecur.
  - destruct b; [| | congruence |].
    + now rewrite (start_press_ignored _ _ _ _ _ _ Ecur).
    + rewrite (add_press _ _ _ _ _ _ Ecur).
      destruct (truthy sel); [|reflexivity].
      destruct (Dict.get sel (menu s)); [|reflexivity].
      destruct (first_short _ _ _); [reflexivity|].
      destruct (Order.add_item _ _ _); reflexivity.
    + destruct (Order.items o) eqn:Ei.
      * now rewrite (finish_press_empty _ _ _ _ _ _ _ Ecur Ei) by auto.
      * rewrite (cancel_press _ _ _ _ _ _ Ecur) by (rewrite Ei; congruence).
        simpl. rewrite filter_app. simpl. now rewrite app_nil_r.
  - destruct b; [| | congruence |].
    + now rewrite (start_press _ _ _ _ _ Ecur).
    + now rewrite no_order_press by (auto; discriminate).
    + now rewrite no_order_press by (auto; discriminate).
Qed.

(** X11.  Only completing an order moves the daily report: after any other
    action, from any session, the report shows the same figures and the
    same popular-items table as before (or stops on the same exception). *)
Theorem only_complete_moves_report sort_values s a :
  is_complete_press a = false ->
  match daily_report sort_values s with
  | Returned r _ => daily_report sort_values (step s a) = Returned r (step s a)
  | Raised e _ => daily_report sort_values (step s a) = Raised e (step s a)
  end.
Proof.
  intros Ha. apply daily_report_reads.
  - destruct a as [c t sel q b|n p cat ing|n q u ms].
    + apply order_page_completed_frame. intros ->. discriminate.
    + destruct (menu_form_cases s n p cat ing) as [->| ->]; reflexivity.
    + destruct (inventory_form_cases s n q u ms) as [inv' ->]. reflexivity.
  - destruct a as [c t sel q b|n p cat ing|n q u ms].
    + apply order_page_frame. intros ->. discriminate.
    + destruct (menu_form_cases s n p cat ing) as [->| ->]; reflexivity.
    + destruct (inventory_form_cases s n q u ms) as [inv' ->]. reflexivity.
Qed.

Lemma only_complete_moves_report_witness :
  let s := run init_session_state (firstn 5 two_orders) in
  let a := OrderPage "Ann" 1 EmptyString 1 CancelOrder in
  daily_report (insertion_sort_desc true) (step s a)
  = Returned (mkReport 1 7.5 7.5 (Some [("Espresso", 3%Z)])) (step s a).
Proof.
  exact (only_complete_moves_report (insertion_sort_desc true)
           (run init_session_state (firstn 5 two_orders))
           (OrderPage "Ann" 1 EmptyString 1 CancelOrder) eq_refl).
Defined.

(* ================================================================== *)
(** * Acceptance of a line *)

(** X12.  The converse of the rejection: if no ingredient of the recipe is
    tracked with a quantity below the request, and the subtotal is
    representable, the Add press appends to the current order one line
    with the menu item's name, price and category, the requested quantity
    and the subtotal price x quantity, adds the subtotal to the total, and
    changes nothing else in the session. *)
Theorem sufficient_stock_accepts_line s order c t sel q menu_item sub :
  current_order s = Some order ->
  truthy sel = true ->
  Dict.get sel (menu s) = Some menu_item ->
  (forall i, In i (MenuItem.ingredients menu_item) ->
             ~ short (inventory s) q i) ->
  float_mul_int (MenuItem.price menu_item) q = inr sub ->
  create_order_page c t sel q AddToOrder s
  = Returned [AddedToOrder q sel]
      (set_current_order
         (Some (Order.make (Order.order_id order) (Order.customer_name order)
                  (Order.items order
                   ++ [Line.make (MenuItem.name menu_item)
                                 (MenuItem.price menu_item) q
                                 (MenuItem.category menu_item) sub])
                  (PrimFloat.add (Order.total order) sub)
                  (Order.timestamp order) (Order.status order)))
         s).
Proof.
  intros Hcur Hsel Hget Hstock Hsub.
  rewrite (add_press _ _ _ _ _ _ Hcur), Hsel, Hget.
  pose proof (first_short_spec (MenuItem.ingredients menu_item)
                (inventory s) q) as H.
  destruct (first_short _ _ _) as [i|].
  - exfalso. destruct H as (before & after & Hdec & Hi & _).
    apply (Hstock i); [|exact Hi]. rewrite Hdec. apply in_or_app.
    right. now left.
  - unfold Order.add_item. now rewrite Hsub.
Qed.

Lemma sufficient_stock_accepts_line_witness :
  let s := run init_session_state (firstn 1 espresso_order) in
  create_order_page "Walk-in" 0 "Mocha" 15 AddToOrder s
  = Returned [AddedToOrder 15 "Mocha"]
      (set_current_order
         (Some (Order.make 1 "Walk-in"
                  [Line.make "Mocha" 5 15 "Coffee" 75] 75 0 pending))
         s).
Proof.
  apply (sufficient_stock_accepts_line
           (run init_session_state (firstn 1 espresso_order))
           (Order.init 1 "Walk-in" 0) "Walk-in" 0 "Mocha" 15
           (MenuItem.make "Mocha" 5 "Coffee"
              ["Coffee beans"; "Milk"; "Chocolate"; "Water"]) 75).
  - reflexivity.
  - reflexivity.
  - reflexivity.
  - intros i Hi (x & Hx & Hlt).
    destruct Hi as [<-|[<-|[<-|[<-|[]]]]]; vm_compute in Hx;
      injection Hx as <-; lia.
  - reflexivity.
Defined.

(* ================================================================== *)
(** * The low-stock alert *)

Lemma shrunk_refl inv : shrunk inv inv.
Proof. induction inv; constructor; auto. repeat split; lia. Qed.

Lemma shrunk_trans inv1 inv2 inv3 :
  shrunk inv1 inv2 -> shrunk inv2 inv3 -> shrunk inv1 inv3.
Proof.
  intros H. revert inv3. induction H as [|e1 e2 l1 l2 He _ IH]; intros inv3 H3.
  - inversion H3. constructor.
  - inversion H3 as [|? e3 ? l3 He3 Hl3]; subst. constructor; [|now apply IH].
    destruct He as (A1 & A2 & A3 & A4 & A5).
    destruct He3 as (B1 & B2 & B3 & B4 & B5).
    repeat split; try congruence. lia.
Qed.

Lemma set_shrunk i it it' : forall inv,
  Dict.get i inv = Some it ->
  InventoryItem.name it' = InventoryItem.name it ->
  InventoryItem.unit it' = InventoryItem.unit it ->
  InventoryItem.min_stock it' = InventoryItem.min_stock it ->
  (InventoryItem.quantity it' <= InventoryItem.quantity it)%Z ->
  shrunk inv (Dict.set i it' inv).
Proof.
  induction inv as [|[k v] inv IH]; simpl; [discriminate|].
  intros Hg Hn Hu Hm Hq. destruct (String.eqb i k) eqn:E.
  - apply String.eqb_eq in E. subst k. injection Hg as ->.
    constructor; [|apply shrunk_refl]. simpl. auto.
  - constructor; [|now apply IH]. simpl. repeat split; lia.
Qed.

Lemma deduct_in_shrunk i q inv :
  (0 <= q)%Z -> shrunk inv (deduct_in i q inv).
Proof.
  intros Hq. unfold deduct_in.
  destruct (Dict.get i inv) as [it|] eqn:E; [|apply shrunk_refl].
  apply (set_shrunk i it); auto. simpl. lia.
Qed.

Lemma deduct_recipe_shrunk recipe q : forall inv,
  (0 <= q)%Z -> shrunk inv (deduct_recipe recipe q inv).
Proof.
  unfold deduct_recipe. induction recipe as [|i rest IH]; intros inv Hq; simpl.
  - apply shrunk_refl.
  - eapply shrunk_trans; [now apply (deduct_in_shrunk i q) | now apply IH].
Qed.

Lemma deduct_lines_shrunk m lines : forall inv,
  Forall (fun item => (0 <= Line.quantity item)%Z) lines ->
  shrunk inv (deduct_lines m lines inv).
Proof.
  unfold deduct_lines. induction lines as [|l rest IH]; intros inv H; simpl.
  - apply shrunk_refl.
  - inversion H as [|? ? Hl Hrest]; subst.
    destruct (Dict.get (Line.name l) m) as [mi|]; [|now apply IH].
    apply (shrunk_trans _
             (deduct_recipe (MenuItem.ingredients mi) (Line.quantity l) inv)).
    + now apply deduct_recipe_shrunk.
    + now apply IH.
Qed.

Lemma shrunk_alert inv inv' :
  shrunk inv inv' ->
  incl (map InventoryItem.name
          (filter InventoryItem.is_low_stock (Dict.values inv)))
       (map InventoryItem.name
          (filter InventoryItem.is_low_stock (Dict.values inv'))).
Proof.
  induction 1 as [|[k v] [k' v'] l l' He _ IH]; simpl; [apply incl_refl|].
  destruct He as (_ & Hn & _ & Hm & Hq). simpl in Hn, Hm, Hq.
  destruct (InventoryItem.is_low_stock v) eqn:E;
    destruct (InventoryItem.is_low_stock v') eqn:E';
    unfold InventoryItem.is_low_stock in E, E'; simpl.
  - rewrite Hn. apply incl_cons; [now left | now apply incl_tl].
  - apply Z.leb_le in E. apply Z.leb_gt in E'. lia.
  - now apply incl_tl.
  - exact IH.
Qed.

Lemma step_shrunk s a :
  Inv2 s -> is_inventory_form a = false ->
  shrunk (inventory s) (inventory (step s a)).
Proof.
  intros [_ _ _ I4 _] Ha.
  destruct a as [c t sel q b|n p cat ing|n q u ms]; [| |discriminate].
  - destruct (Button_eq_dec_complete b) as [->|Hb].
    + unfold step, handle. destruct (current_order s) as [o|] eqn:Ecur.
      * pose proof (I4 o eq_refl) as Hsound.
        destruct (Order.items o) eqn:Ei.
        -- rewrite (finish_press_empty _ _ _ _ _ _ _ Ecur Ei) by auto.
           apply shrunk_refl.
        -- rewrite (complete_press _ _ _ _ _ _ Ecur)
             by (rewrite ?Ei;
                 first [congruence | apply lines_sound_on_menu; exact Hsound]).
           cbn [state_of inventory]. apply deduct_lines_shrunk.
           rewrite Ei. revert Hsound. apply Forall_impl.
           intros item [Hq _]. lia.
      * rewrite no_order_press by (auto; discriminate). apply shrunk_refl.
    + destruct (order_page_frame s c t sel q b Hb) as [-> _].
      apply shrunk_refl.
  - destruct (menu_form_cases s n p cat ing) as [->| ->]; apply shrunk_refl.
Qed.

(** X13.  A low-stock alert is only cleared by restocking: in a reachable
    session, after any action other than the inventory form every name in
    the alert is still in the alert, and no entry of the ledger has grown,
    moved or changed its name, unit or minimum. *)
Theorem low_stock_stays_low s a :
  reachable s ->
  is_inventory_form a = false ->
  shrunk (inventory s) (inventory (step s a))
  /\ exists before after,
       low_stock_alert s = Returned before s
       /\ low_stock_alert (step s a) = Returned after (step s a)
       /\ incl before after.
Proof.
  intros Hr Ha.
  pose proof (step_shrunk s a (reachable_Inv2 s Hr) Ha) as Hsh.
  split; [exact Hsh|]. do 2 eexists.
  split; [reflexivity|]. split; [reflexivity|]. now apply shrunk_alert.
Qed.

(** An order of 9 Croissants brings Butter (10, minimum 2) into the
    alert; an order of 20 Muffins then adds Sugar and Flour, and Butter
    stays. *)
Lemma low_stock_stays_low_witness :
  let s := run init_session_state croissants_then_muffins in
  let a := OrderPage "Ann" 1 EmptyString 1 CompleteOrder in
  exists before after,
    low_stock_alert s = Returned before s
    /\ low_stock_alert (step s a) = Returned after (step s a)
    /\ incl before after.
Proof.
  refine (proj2 (low_stock_stays_low _
                   (OrderPage "Ann" 1 EmptyString 1 CompleteOrder)
                   (reachable_run _ croissants_then_muffins reachable_init
                      eq_refl)
                   eq_refl)).
Defined.

Example croissants_raise_alert :
  let s := run init_session_state croissants_then_muffins in
  state_of_alert s = ["Butter"]
  /\ state_of_alert (step s (OrderPage "Ann" 1 EmptyString 1 CompleteOrder))
     = ["Sugar"; "Flour"; "Butter"].
Proof. vm_compute. split; reflexivity. Qed.

(* ================================================================== *)
(** * The dashboard *)

Lemma run_snoc s actions a : run s (actions ++ [a]) = step (run s actions) a.
Proof. unfold run. now rewrite fold_left_app. Qed.

Lemma reachable_is_run s :
  reachable s -> exists actions, s = run init_session_state actions.
Proof.
  induction 1 as [|s a _ [actions ->] _].
  - now exists [].
  - exists (actions ++ [a])%list. now rewrite run_snoc.
Qed.

(** X14.  On the dashboard of a reachable session, Daily Sales is the sum,
    in order of completion, of the totals of the completed orders, Today's
    Orders is their number, and the menu and the ledger never show fewer
    than the 8 and 9 entries the session starts with. *)
Theorem dashboard_figures s :
  reachable s ->
  exists d,
    dashboard s = Returned d s
    /\ dashboard_sales d = sales_of (filter is_completed (orders s))
    /\ todays_orders d
       = Z.of_nat (List.length (filter is_completed (orders s)))
    /\ (8 <= menu_items d)%Z
    /\ (9 <= inventory_items d)%Z.
Proof.
  intros Hr. eexists. split; [reflexivity|]. simpl.
  destruct (reachable_Inv s Hr) as [_ _ _ Hs].
  destruct (reachable_is_run s Hr) as [actions ->].
  destruct (run_keys actions init_session_state) as (m & i & Hm & Hi).
  apply (f_equal (@List.length string)) in Hm, Hi.
  unfold Dict.keys in Hm, Hi. rewrite length_app, !length_map in Hm, Hi.
  change (List.length (menu init_session_state)) with 8%nat in Hm.
  change (List.length (inventory init_session_state)) with 9%nat in Hi.
  repeat split; [exact Hs | lia | lia].
Qed.

Lemma dashboard_figures_witness :
  exists d,
    dashboard (run init_session_state two_orders)
    = Returned d (run init_session_state two_orders)
    /\ dashboard_sales d
       = sales_of (filter is_completed
                     (orders (run init_session_state two_orders)))
    /\ todays_orders d
       = Z.of_nat (List.length
                     (filter is_completed
                        (orders (run init_session_state two_orders))))
    /\ (8 <= menu_items d)%Z
    /\ (9 <= inventory_items d)%Z.
Proof.
  exact (dashboard_figures _
           (reachable_run _ two_orders reachable_init eq_refl)).
Defined.

(* ================================================================== *)
(** * Rows of the popular-items table *)

Lemma get_in {V} k (v : V) d : Dict.get k d = Some v -> In (k, v) d.
Proof.
  induction d as [|[k0 v0] d IH]; simpl; [discriminate|].
  destruct (String.eqb k k0) eqn:E.
  - apply String.eqb_eq in E. subst k0. intros [= ->]. now left.
  - intros H. right. now apply IH.
Qed.

Lemma set_forall {V} (P : string * V -> Prop) k v d :
  Forall P d -> P (k, v) -> Forall P (Dict.set k v d).
Proof.
  induction 1 as [|[k0 v0] d H0 Hd IH]; intros Hk; simpl.
  - now constructor.
  - destruct (String.eqb k k0); constructor; auto.
Qed.

Lemma counted_rows (P : string -> Prop) lines : forall d,
  Forall (fun row => P (fst row) /\ (1 <= snd row)%Z) d ->
  Forall (fun item => P (Line.name item) /\ (1 <= Line.quantity item)%Z)
         lines ->
  Forall (fun row => P (fst row) /\ (1 <= snd row)%Z)
         (fold_left count_item lines d).
Proof.
  induction lines as [|l rest IH]; intros d Hd Hl; simpl; [exact Hd|].
  inversion Hl as [|? ? [Hp Hq] Hrest]; subst.
  apply IH; [|exact Hrest]. unfold count_item.
  apply set_forall; [exact Hd|]. simpl. split; [exact Hp|].
  destruct (Dict.get (Line.name l) d) as [n|] eqn:E; [|lia].
  apply get_in in E. rewrite Forall_forall in Hd.
  destruct (Hd _ E) as [_ Hn]. simpl in Hn. lia.
Qed.

(** X15.  In a reachable session, whatever descending sort is used, every
    row of the popular-items table names an item that is on the menu and
    shows a quantity of at least 1. *)
Theorem popular_rows_are_sound sort_values s :
  sorts_descending sort_values ->
  reachable s ->
  forall df,
    popular_items sort_values (filter is_completed (orders s)) = Some df ->
    Forall (fun row =>
              In (fst row) (Dict.keys (menu s)) /\ (1 <= snd row)%Z) df.
Proof.
  intros Hsort Hr df Hdf.
  assert (Hrows : Forall (fun row => In (fst row) (Dict.keys (menu s))
                                     /\ (1 <= snd row)%Z)
                         (item_count (filter is_completed (orders s)))).
  { rewrite item_count_flat.
    apply (counted_rows (fun n => In n (Dict.keys (menu s))));
      [constructor|].
    apply Forall_forall. intros l Hl.
    apply in_flat_map in Hl as (o & Ho & Hlo).
    apply filter_In in Ho as [Ho _].
    destruct (filed_orders_sound_lemma s Hr o Ho) as [_ H].
    rewrite Forall_forall in H. destruct (H l Hlo). split; assumption. }
  unfold popular_items in Hdf.
  destruct (filter is_completed (orders s)) as [|o os]; [discriminate|].
  destruct (item_count (o :: os)) as [|r rows]; [discriminate|].
  injection Hdf as <-. destruct (Hsort (r :: rows)) as [Hp _].
  apply Forall_forall. intros row Hrow.
  rewrite Forall_forall in Hrows. apply Hrows.
  now apply (Permutation_in _ Hp).
Qed.

Lemma popular_rows_are_sound_witness :
  Forall (fun row =>
            In (fst row)
               (Dict.keys (menu (run init_session_state muffin_latte_twice)))
            /\ (1 <= snd row)%Z)
         [("Muffin", 4%Z); ("Latte", 2%Z)].
Proof.
  apply (popular_rows_are_sound (insertion_sort_desc true)
           (run init_session_state muffin_latte_twice)
           (insertion_sort_desc_ok true)
           (reachable_run _ muffin_latte_twice reachable_init eq_refl)).
  vm_compute. reflexivity.
Defined.

(* ================================================================== *)
(** * Orders without lines, orders of one line *)

(** X16.  An order without lines can be neither completed nor cancelled,
    and no other order can be started while it is open: in any session
    whose current order is empty, every button of the order page except
    Add to Order leaves the session as it is and shows nothing. *)
Theorem empty_order_stays_open s o c t sel q b :
  current_order s = Some o ->
  Order.items o = [] ->
  b <> AddToOrder ->
  create_order_page c t sel q b s = Returned [] s.
Proof.
  intros Hcur Hi Hb. destruct b; [| congruence | |].
  - now apply (start_press_ignored s o).
  - apply (finish_press_empty s o); auto.
  - apply (finish_press_empty s o); auto.
Qed.

Lemma empty_order_stays_open_witness :
  let s := run init_session_state (firstn 1 espresso_order) in
  create_order_page "Walk-in" 0 EmptyString 1 CancelOrder s = Returned [] s.
Proof.
  apply (empty_order_stays_open
           (run init_session_state (firstn 1 espresso_order))
           (Order.init 1 "Walk-in" 0)).
  - reflexivity.
  - reflexivity.
  - discriminate.
Defined.

(** X17.  Where the availability check is enough.  In a reachable session
    with an empty current order and no negative quantity in the ledger,
    adding one line of an item whose recipe lists no ingredient twice and
    completing the order leaves no negative quantity, whether the line was
    accepted or rejected. *)
Theorem one_line_order_never_oversells s o c t sel q :
  reachable s ->
  current_order s = Some o ->
  Order.items o = [] ->
  offered s (OrderPage c t sel q AddToOrder) = true ->
  (forall menu_item, Dict.get sel (menu s) = Some menu_item ->
                     NoDup (MenuItem.ingredients menu_item)) ->
  stock_nonnegative (inventory s) ->
  stock_nonnegative
    (inventory (run s [ OrderPage c t sel q AddToOrder;
                        OrderPage c t sel q CompleteOrder ])).
Proof.
  intros Hr Hcur Hempty Hoff Hnd Hpos.
  destruct (reachable_Inv s Hr) as [Hm _ _ _].
  assert (Hsame : forall s1, current_order s1 = Some o ->
                    inventory s1 = inventory s ->
                    stock_nonnegative
                      (inventory (step s1 (OrderPage c t sel q CompleteOrder)))).
  { intros s1 H1 Hi. unfold step, handle.
    rewrite (finish_press_empty s1 o) by auto. simpl. now rewrite Hi. }
  simpl run. unfold step at 2. simpl handle.
  rewrite (add_press _ _ _ _ _ _ Hcur).
  destruct (truthy sel) eqn:Et; [|now apply Hsame].
  pose proof (offered_selected _ _ _ _ _ _ Hoff Et) as Hsel.
  destruct (Dict.get sel (menu s)) as [mi|] eqn:Eg; [|congruence].
  destruct (first_short (MenuItem.ingredients mi) (inventory s) q) eqn:Ef;
    [now apply Hsame|].
  destruct (Order.add_item mi q o) as [e|o'] eqn:Ea; [now apply Hsame|].
  destruct (add_item_inr _ _ _ _ Ea) as (sub & _ & Hi & _).
  rewrite Hempty in Hi. simpl in Hi. cbn [state_of].
  simpl in Hoff. apply andb_prop in Hoff as [_ Hq]. apply Z.leb_le in Hq.
  assert (Hname : Dict.get (MenuItem.name mi) (menu s) = Some mi)
    by (now rewrite (Hm _ _ Eg)).
  assert (Hc' : current_order (set_current_order (Some o') s) = Some o')
    by reflexivity.
  assert (Hne : Order.items o' <> []) by (rewrite Hi; discriminate).
  assert (Hlm : lines_on_menu (menu (set_current_order (Some o') s))
                              (Order.items o')).
  { rewrite Hi. repeat constructor. simpl. congruence. }
  unfold step, handle.
  rewrite (complete_press _ o' c t sel q Hc' Hne Hlm).
  cbn [state_of inventory set_current_order menu]. rewrite Hi.
  intros j y.
  apply (single_line_never_oversells (menu s) (inventory s) mi); simpl; auto.
  lia.
Qed.

Lemma one_line_order_never_oversells_witness :
  stock_nonnegative
    (inventory
       (run (run init_session_state (firstn 1 espresso_order))
            [ OrderPage "Walk-in" 0 "Green Tea" 5 AddToOrder;
              OrderPage "Walk-in" 0 "Green Tea" 5 CompleteOrder ])).
Proof.
  apply (one_line_order_never_oversells
           (run init_session_state (firstn 1 espresso_order))
           (Order.init 1 "Walk-in" 0) "Walk-in" 0 "Green Tea" 5).
  - exact (reachable_run _ (firstn 1 espresso_order) reachable_init eq_refl).
  - reflexivity.
  - reflexivity.
  - reflexivity.
  - intros mi H. vm_compute in H. injection H as <-.
    repeat constructor; simpl; intuition discriminate.
  - intros j x H. unfold stock in H.
    destruct (Dict.get j _) as [it|] eqn:E; [|discriminate].
    apply get_in in E. injection H as <-. vm_compute in E.
    repeat (destruct E as [E|E]; [injection E as <- <-; simpl; lia|]).
    destruct E.
Defined.

(* ================================================================== *)
(** * Prices *)

Lemma Inv3_init : Inv3 init_session_state.
Proof.
  split.
  - intros k mi H. apply get_in in H.
    assert (Hall : Forall (fun e => price_ok (MenuItem.price (snd e)))
                          (menu init_session_state))
      by (repeat constructor).
    rewrite Forall_forall in Hall. exact (Hall _ H).
  - intros o H. discriminate H.
  - constructor.
Qed.

Lemma Inv3_step s a : Inv s -> Inv3 s -> offered s a = true -> Inv3 (step s a).
Proof.
  intros [Hm Hc Hh Hs] H3 Hoff. pose proof H3 as [P1 P2 P3].
  destruct a as [c t sel q b|n p cat ing|n q u ms].
  - unfold step, handle. destruct (current_order s) as [o|] eqn:Ecur.
    + destruct (Hc o eq_refl) as (_ & Hlines & _).
      pose proof (P2 o eq_refl) as Hprices. destruct b.
      * now rewrite (start_press_ignored _ _ _ _ _ _ Ecur).
      * rewrite (add_press _ _ _ _ _ _ Ecur).
        destruct (truthy sel) eqn:Et; [|exact H3].
        destruct (Dict.get sel (menu s)) as [mi|] eqn:Eg; [|exact H3].
        destruct (first_short _ _ _); [exact H3|].
        destruct (Order.add_item mi q o) as [e|o'] eqn:Ea; [exact H3|].
        destruct (add_item_inr _ _ _ _ Ea) as (sub & _ & Hi & _).
        split; simpl; auto. intros ? [= <-]. rewrite Hi.
        apply Forall_app. split; [exact Hprices|].
        constructor; [|constructor]. simpl. exact (P1 _ _ Eg).
      * destruct (Order.items o) eqn:Ei.
        -- now rewrite (finish_press_empty _ _ _ _ _ _ _ Ecur Ei) by auto.
        -- rewrite (complete_press _ _ _ _ _ _ Ecur)
             by (rewrite ?Ei; first [congruence | exact Hlines]).
           split; simpl; auto; [discriminate|].
           apply Forall_app. split; [exact P3|].
           constructor; [|constructor]. simpl. now rewrite Ei.
      * destruct (Order.items o) eqn:Ei.
        -- now rewrite (finish_press_empty _ _ _ _ _ _ _ Ecur Ei) by auto.
        -- rewrite (cancel_press _ _ _ _ _ _ Ecur) by (rewrite Ei; congruence).
           split; simpl; auto; [discriminate|].
           apply Forall_app. split; [exact P3|].
           constructor; [|constructor]. simpl. now rewrite Ei.
    + destruct b.
      * rewrite (start_press _ _ _ _ _ Ecur). split; simpl; auto.
        intros ? [= <-]. constructor.
      * now rewrite no_order_press by (auto; discriminate).
      * now rewrite no_order_press by (auto; discriminate).
      * now rewrite no_order_press by (auto; discriminate).
  - unfold step, handle, add_menu_item_page.
    destruct (truthy n); [|exact H3].
    destruct (PrimFloat.leb p 0) eqn:Ep; [exact H3|].
    destruct (truthy cat); [|exact H3].
    split; simpl; auto. intros k mi.
    destruct (string_dec n k) as [<-|Hne].
    + rewrite get_set_same. intros [= <-]. exact Ep.
    + rewrite get_set_other by exact Hne. apply P1.
  - destruct (inventory_form_cases s n q u ms) as [inv' ->].
    split; simpl; auto.
Qed.

Lemma reachable_Inv3 s : reachable s -> Inv3 s.
Proof.
  induction 1 as [|s a Hr IH Hoff]; [exact Inv3_init|].
  apply Inv3_step; [now apply reachable_Inv | exact IH | exact Hoff].
Qed.

(** X18.  Every price the program holds passed the check of the menu form:
    in a reachable session no item on the menu and no line of the current
    order or of a filed order has a price [<= 0]. *)
Theorem prices_passed_validation s :
  reachable s ->
  (forall k mi, Dict.get k (menu s) = Some mi ->
                PrimFloat.leb (MenuItem.price mi) 0%float = false)
  /\ (forall o, current_order s = Some o \/ In o (orders s) ->
        Forall (fun item => PrimFloat.leb (Line.price item) 0%float = false)
               (Order.items o)).
Proof.
  intros Hr. destruct (reachable_Inv3 s Hr) as [P1 P2 P3]. split.
  - exact P1.
  - intros o [H|H]; [now apply P2|].
    rewrite Forall_forall in P3. now apply P3.
Qed.

Lemma prices_passed_validation_witness :
  let s := run init_session_state espresso_rewritten in
  Dict.get "Espresso" (menu s)
  = Some (MenuItem.make "Espresso" 9 "Special" ["Milk"])
  /\ PrimFloat.leb 9 0%float = false.
Proof.
  split; [reflexivity|].
  exact (proj1 (prices_passed_validation
                  (run init_session_state espresso_rewritten)
                  (reachable_run _ espresso_rewritten reachable_init eq_refl))
           "Espresso" (MenuItem.make "Espresso" 9 "Special" ["Milk"])
           eq_refl).
Defined.
